(** * queuectl: a persistent job queue on SQLite

    A shallow embedding of [queuectl.py] and the properties of its job state
    machine: enqueue, the claim protocol ([fetch_pending_job]), the
    retry/backoff policy of [process_loop], the dead-letter queue and the
    pause/resume/cancel controls.

    Conventions of the embedding
    - The database is a record of the two tables. [jobs] is the list of rows
      in insertion (rowid) order, [config] a finite map from key to value.
    - TEXT columns are strings, compared byte-wise as SQLite's BINARY
      collation does ([String.compare]). Timestamps are the strings that
      [now_iso()] returns; every call of [now_iso()] is an explicit argument.
      The [id] column is nullable, so it is an [option string].
    - INTEGER columns are [Z].
    - Python exceptions are the [Raise] side of [result]; messages printed by
      [click.echo] are the constructors of [message]. Standard output takes
      every message: what can fail in a [print] is the conversion of an int
      to text.
    - The outcome of [execute_job_with_logging] (a subprocess) and the
      outcome of [BEGIN IMMEDIATE] (lock acquired or not) are inputs.
    - What the Python interpreter and SQLite decide and the repository does
      not ([int] of a string, the digit limit of [str] of an int, the text of
      a REAL) is the class [Runtime]: the theorems hold for each of its
      instances, and the scenarios at the end are run on one of them. *)

From Stdlib Require Import ZArith String Ascii List Sorted.
From Stdlib Require Import SpecFloat.
From stdpp Require Import base decidable option list gmap strings pretty.

Set Warnings "-register-all".

Local Open Scope string_scope.
Local Open Scope Z_scope.

(** ** The interpreter and the storage engine *)

Class Runtime := {
  (** [int(s)] for a [str]: [None] when it raises ValueError. *)
  int_of_text : string → option Z;
  (** Whether an int can be converted to its decimal text ([str], an
      f-string): CPython 3.11 and later refuse beyond a number of digits,
      4300 unless configured, and the limit cannot be set below 640. *)
  int_printable : Z → bool;
  int_printable_small : ∀ z, Z.abs z < 10 ^ 640 → int_printable z = true;
  (** The text SQLite stores when a REAL goes into a TEXT column. *)
  real_text : spec_float → string;
  real_text_nonempty : ∀ f, real_text f ≠ ""
}.

(** ** Python values and exceptions *)

Inductive click_error :=
| MustIncludeId          (* "Job must include an 'id'." *)
| MustIncludeCommand     (* "Job must include a 'command'." *)
| JobAlreadyExists.      (* "Job <id> already exists." *)

Inductive exn :=
| ClickException (e : click_error)
| ValueError
| TypeError
| ProgrammingError       (* sqlite3: parameter of an unsupported type *)
| OverflowError          (* sqlite3: Python int too large for INTEGER *)
| IntegrityError.        (* sqlite3: constraint failed *)

Inductive result (A : Type) :=
| Ok (a : A)
| Raise (e : exn).
Arguments Ok {A} a.
Arguments Raise {A} e.

Global Instance result_ret : MRet result := λ A a, Ok a.
Global Instance result_bind : MBind result := λ A B k r,
  match r with
  | Ok a => k a
  | Raise e => Raise e
  end.

(** [try: body  except Exception: handler] *)
Definition try_except {A} (body : result A) (handler : A) : A :=
  match body with
  | Ok a => a
  | Raise _ => handler
  end.

(** What [json.loads] produces for a field of the descriptor. A number with
    a fraction or an exponent, and the literals NaN and Infinity, are floats:
    IEEE 754 doubles. *)
Inductive json :=
| JNull
| JBool (b : bool)
| JInt (z : Z)
| JFloat (f : spec_float)
| JStr (s : string)
| JArr (l : list json)
| JObj (l : list (string * json)).

(** Python truth value of [data.get(key)]; [None] stands for both an absent
    key and a JSON null. A float is false when it is zero; NaN is true. *)
Definition truthy (v : option json) : bool :=
  match v with
  | None | Some JNull => false
  | Some (JBool b) => b
  | Some (JInt z) => negb (z =? 0)
  | Some (JFloat (S754_zero _)) => false
  | Some (JFloat _) => true
  | Some (JStr s) => negb (String.eqb s "")
  | Some (JArr l) => negb (Nat.eqb (length l) 0)
  | Some (JObj l) => negb (Nat.eqb (length l) 0)
  end.

(** A value read back from the config table by [get_config]: an [int] when
    the stored text converts, else the text itself. *)
Inductive pyval :=
| PyInt (z : Z)
| PyStr (s : string).

(** [n < v] with [n] an int: comparing an int with a str raises. *)
Definition py_int_lt (n : Z) (v : pyval) : result bool :=
  match v with
  | PyInt m => Ok (n <? m)
  | PyStr _ => Raise TypeError
  end.

(** ** Configuration constants *)

Definition DEFAULT_MAX_RETRIES : Z := 3.
Definition DEFAULT_BACKOFF_BASE : Z := 2.

(** ** The database *)

Record job := mkJob {
  job_id : option string;
  job_command : string;
  job_state : string;
  job_attempts : Z;
  job_max_retries : Z;
  job_created_at : string;
  job_updated_at : string;
  job_priority : Z;
  job_run_at : option string
}.

Record db := mkDb {
  jobs : list job;
  config : gmap string string
}.

Definition empty_db : db := mkDb [] ∅.

Definition with_jobs (d : db) (l : list job) : db := mkDb l (config d).

(** [SET state=?, updated_at=?] *)
Definition set_state (s t : string) (j : job) : job :=
  mkJob (job_id j) (job_command j) s (job_attempts j) (job_max_retries j)
        (job_created_at j) t (job_priority j) (job_run_at j).

(** [SET state=?, attempts=?, updated_at=?] *)
Definition set_state_attempts (s : string) (a : Z) (t : string) (j : job) : job :=
  mkJob (job_id j) (job_command j) s a (job_max_retries j)
        (job_created_at j) t (job_priority j) (job_run_at j).

(** [UPDATE jobs SET ... WHERE p] and [cur.rowcount] *)
Definition sql_update (p : job → bool) (f : job → job) (l : list job) : list job :=
  map (λ r, if p r then f r else r) l.

Definition rowcount (p : job → bool) (l : list job) : nat :=
  length (List.filter p l).

(** [DELETE FROM jobs WHERE p] *)
Definition sql_delete (p : job → bool) (l : list job) : list job :=
  List.filter (λ r, negb (p r)) l.

(** [WHERE id=?] with a [str] parameter: a row whose id is NULL never
    matches. *)
Definition has_id (x : string) (r : job) : bool :=
  match job_id r with
  | Some y => String.eqb y x
  | None => false
  end.

(** [WHERE id=?] with the value of [row["id"]] as parameter: [None] is bound
    as NULL, and [id = NULL] is true of no row. *)
Definition id_is (p : option string) (r : job) : bool :=
  match p with
  | Some x => has_id x r
  | None => false
  end.

(** [WHERE state=?] *)
Definition in_state (s : string) (r : job) : bool := String.eqb (job_state r) s.

(** The row with a given id (the primary key makes it unique). *)
Definition lookup_job (x : string) (d : db) : option job :=
  List.find (has_id x) (jobs d).

(** ** Claim protocol *)

(** The six columns that [fetch_pending_job] selects and returns. *)
Record row := mkRow {
  row_id : option string;
  row_command : string;
  row_attempts : Z;
  row_max_retries : Z;
  row_priority : Z;
  row_run_at : option string
}.

Definition select_row (j : job) : row :=
  mkRow (job_id j) (job_command j) (job_attempts j) (job_max_retries j)
        (job_priority j) (job_run_at j).

(** [run_at IS NULL OR run_at <= ?] *)
Definition run_at_due (now : string) (j : job) : bool :=
  match job_run_at j with
  | None => true
  | Some t => String.leb t now
  end.

(** [WHERE state = 'pending' AND (run_at IS NULL OR run_at <= ?)] *)
Definition eligible (now : string) (j : job) : bool :=
  in_state "pending" j && run_at_due now j.

(** [ORDER BY priority DESC, created_at]: [a] sorts no later than [b]. *)
Definition claim_order (a b : job) : bool :=
  (job_priority b <? job_priority a)
  || (job_priority a =? job_priority b)
     && String.leb (job_created_at a) (job_created_at b).

(** A stable sort: rows that tie on both keys keep their table order, which
    is how a scan in rowid order feeds SQLite's sorter. *)
Fixpoint insert_by (le : job → job → bool) (x : job) (l : list job) : list job :=
  match l with
  | [] => [x]
  | y :: l' => if le x y then x :: l else y :: insert_by le x l'
  end.

Fixpoint order_by (le : job → job → bool) (l : list job) : list job :=
  match l with
  | [] => []
  | x :: l' => insert_by le x (order_by le l')
  end.

(** [lock] tells whether [BEGIN IMMEDIATE] got the write lock; [t_sel] and
    [t_upd] are the two readings of [now_iso()]. *)
Definition fetch_pending_job (lock : bool) (t_sel t_upd : string) (d : db)
  : option row * db :=
  if negb lock then (None, d)
  else
    match head (order_by claim_order (List.filter (eligible t_sel) (jobs d))) with
    | None => (None, d)
    | Some j =>
        (Some (select_row j),
         with_jobs d (sql_update (id_is (job_id j))
                                 (set_state "processing" t_upd) (jobs d)))
    end.

Definition update_job_state (d : db) (job_id : option string)
    (new_state : string) (attempts : Z) (t : string) : db :=
  with_jobs d (sql_update (id_is job_id)
                          (set_state_attempts new_state attempts t) (jobs d)).

(** ** Listings *)

(** [ORDER BY created_at] and [ORDER BY updated_at DESC] *)
Definition by_created_at (a b : job) : bool :=
  String.leb (job_created_at a) (job_created_at b).

Definition by_updated_at_desc (a b : job) : bool :=
  String.leb (job_updated_at b) (job_updated_at a).

(** [list --state s]: the filter applies when [state] is truthy, so both no
    option and an empty string list every job. The empty result is printed
    as "No jobs found.". *)
Definition list_jobs (state : option string) (d : db) : list job :=
  match state with
  | Some s =>
      if negb (String.eqb s "")
      then order_by by_created_at (List.filter (in_state s) (jobs d))
      else order_by by_created_at (jobs d)
  | None => order_by by_created_at (jobs d)
  end.

Definition dlq_list (d : db) : list job :=
  order_by by_updated_at_desc (List.filter (in_state "dead") (jobs d)).

(** [SELECT state, COUNT( * ) as c FROM jobs GROUP BY state], collected into
    the dict [states]. *)
Definition group_count (l : list job) : gmap string nat :=
  foldr (λ r m, <[job_state r := S (default 0%nat (m !! job_state r))]> m) ∅ l.

(** The six lines that [status] prints: [states.get(s, 0)] for each name. *)
Definition status_names : list string :=
  ["pending"; "processing"; "completed"; "failed"; "dead"; "paused"].

Definition status_counts (d : db) : list (string * nat) :=
  map (λ s, (s, default 0%nat (group_count (jobs d) !! s))) status_names.

(** ** DLQ and job control commands *)

(** Messages printed by the commands. *)
Inductive message :=
| Enqueued
| NotFoundInDlq
| MovedBackToPending
| DeadJobsPurged
| NoJobFound
| JobPaused
| NotFoundOrNotPaused
| JobResumed
| JobCancelled
| ConfigSet.

(** [dlq_retry] runs two statements: the SELECT that looks for the dead
    job... *)
Definition dlq_retry_select (job_id : string) (d : db) : option job :=
  List.find (λ r, has_id job_id r && in_state "dead" r) (jobs d).

(** ...and, when it found one, the UPDATE by id alone. *)
Definition dlq_retry_update (t job_id : string) (d : db) : db :=
  with_jobs d (sql_update (has_id job_id)
                          (set_state_attempts "pending" 0 t) (jobs d)).

Definition dlq_retry (t job_id : string) (d : db) : message * db :=
  match dlq_retry_select job_id d with
  | None => (NotFoundInDlq, d)
  | Some _ => (MovedBackToPending, dlq_retry_update t job_id d)
  end.

Definition dlq_purge (d : db) : message * db :=
  (DeadJobsPurged, with_jobs d (sql_delete (in_state "dead") (jobs d))).

Definition set_config_value (d : db) (key value : string) : db :=
  mkDb (jobs d) (<[key := value]> (config d)).

Definition config_set (key value : string) (d : db) : message * db :=
  (ConfigSet, set_config_value d key value).

Definition pause_job (t job_id : string) (d : db) : message * db :=
  if Nat.eqb (rowcount (has_id job_id) (jobs d)) 0 then (NoJobFound, d)
  else
    (JobPaused,
     with_jobs d (sql_update (has_id job_id) (set_state "paused" t) (jobs d))).

Definition resume_job (t job_id : string) (d : db) : message * db :=
  let p := λ r, has_id job_id r && in_state "paused" r in
  if Nat.eqb (rowcount p (jobs d)) 0 then (NotFoundOrNotPaused, d)
  else (JobResumed, with_jobs d (sql_update p (set_state "pending" t) (jobs d))).

Definition cancel_job (job_id : string) (d : db) : message * db :=
  if Nat.eqb (rowcount (has_id job_id) (jobs d)) 0 then (NoJobFound, d)
  else (JobCancelled, with_jobs d (sql_delete (has_id job_id) (jobs d))).

(** ** The program, for any runtime *)

Section program.
Context `{Runtime}.

(** *** Config table *)

(** [int(v)] where [v] is a [str]. *)
Definition int_of_str (s : string) : result Z :=
  match int_of_text s with
  | Some n => Ok n
  | None => Raise ValueError
  end.

(** [int(v)] for a value that came out of [get_config]. *)
Definition py_int (v : pyval) : result Z :=
  match v with
  | PyInt n => Ok n
  | PyStr s => int_of_str s
  end.

Definition get_config (d : db) (key : string) (default : pyval) : pyval :=
  match config d !! key with
  | Some v => try_except (n ← int_of_str v; mret (PyInt n)) (PyStr v)
  | None => default
  end.

(** *** Worker loop *)

(** What one pass through the body of [process_loop] did with its job. *)
Inductive outcome :=
| Completed
| Retrying (new_attempts delay : Z)   (* requeued; the worker sleeps [delay] s *)
| MovedToDlq (new_attempts : Z).

(** [job["max_retries"] or max_retries_conf] *)
Definition job_max_retries_or (job : row) (max_retries_conf : pyval) : pyval :=
  if row_max_retries job =? 0 then max_retries_conf
  else PyInt (row_max_retries job).

(** [try: base = int(backoff_base_conf)  except Exception: base = 2] *)
Definition backoff_base (backoff_base_conf : pyval) : Z :=
  try_except (py_int backoff_base_conf) DEFAULT_BACKOFF_BASE.

(** The part of the loop body after [execute_job_with_logging] returned
    [success]. A [Raise] leaves the loop: the worker process dies and the job
    stays as the claim left it. [attempts] starts at 0 and only grows, so the
    exponent of [base ** new_attempts] is positive and the power is an int.
    The [print] of the retry message formats [delay] and raises when the
    runtime refuses to convert it, before [update_job_state] is reached; the
    other messages format only ids, return codes and the small integers of
    the row. *)
Definition finish_job (max_retries_conf backoff_base_conf : pyval)
    (job : row) (success : bool) (t : string) (d : db) : result outcome * db :=
  let job_id := row_id job in
  if success then
    (Ok Completed, update_job_state d job_id "completed" (row_attempts job) t)
  else
    let new_attempts := row_attempts job + 1 in
    let job_max_retries := job_max_retries_or job max_retries_conf in
    match py_int_lt new_attempts job_max_retries with
    | Raise e => (Raise e, d)
    | Ok true =>
        let base := backoff_base backoff_base_conf in
        let delay := base ^ new_attempts in
        if int_printable delay then
          (Ok (Retrying new_attempts delay),
           update_job_state d job_id "pending" new_attempts t)
        else (Raise ValueError, d)
    | Ok false =>
        (Ok (MovedToDlq new_attempts),
         update_job_state d job_id "dead" new_attempts t)
    end.

(** The configuration a worker snapshots when it starts. *)
Definition load_max_retries (d : db) : pyval :=
  get_config d "max_retries" (PyInt DEFAULT_MAX_RETRIES).

Definition load_backoff_base (d : db) : pyval :=
  get_config d "backoff_base" (PyInt DEFAULT_BACKOFF_BASE).

(** One pass of the [while] loop run by a single worker: claim, execute,
    transition. [None] is the idle pass (nothing claimed). *)
Definition worker_pass (max_retries_conf backoff_base_conf : pyval)
    (lock : bool) (t_sel t_upd : string) (success : bool) (t_fin : string)
    (d : db) : option (row * result outcome) * db :=
  match fetch_pending_job lock t_sel t_upd d with
  | (None, d') => (None, d')
  | (Some job, d') =>
      let '(r, d'') :=
        finish_job max_retries_conf backoff_base_conf job success t_fin d' in
      (Some (job, r), d'')
  end.

(** The id of the job a pass claimed ([None] also for a NULL id), and what
    the table says about a job. *)
Definition claimed (p : option (row * result outcome) * db) : option string :=
  p.1 ≫= λ c, row_id c.1.

Definition status (x : string) (d : db) : option (string * Z) :=
  (λ j, (job_state j, job_attempts j)) <$> lookup_job x d.

(** *** Enqueue *)

(** The dict that [json.loads] returns, at the five keys [enqueue] reads.
    [d_id] and [d_command] hold whatever [data.get] yields ([None] for an
    absent key); the optional fields are taken at the types the docstring
    gives them ([max_retries] int, [priority] int, [run_at] ISO timestamp):
    descriptors that put another JSON value there are outside the model. *)
Record descriptor := mkDescriptor {
  d_id : option json;
  d_command : option json;
  d_max_retries : option Z;
  d_priority : option Z;
  d_run_at : option string
}.

(** A parameter as the sqlite3 module hands it to SQLite. *)
Inductive sqlval :=
| SqlNull
| SqlInt (z : Z)
| SqlReal (f : spec_float)
| SqlText (s : string).

Definition in_int64 (z : Z) : bool :=
  (- 2 ^ 63 <=? z) && (z <? 2 ^ 63).

Definition bind_int (z : Z) : result Z :=
  if in_int64 z then Ok z else Raise OverflowError.

(** Python [bool] is an [int]; SQLite stores a NaN as NULL; lists and dicts
    cannot be bound. *)
Definition bind_param (v : option json) : result sqlval :=
  match v with
  | None | Some JNull => Ok SqlNull
  | Some (JBool b) => Ok (SqlInt (if b then 1 else 0))
  | Some (JInt z) => z' ← bind_int z; mret (SqlInt z')
  | Some (JFloat S754_nan) => Ok SqlNull
  | Some (JFloat f) => Ok (SqlReal f)
  | Some (JStr s) => Ok (SqlText s)
  | Some (JArr _) | Some (JObj _) => Raise ProgrammingError
  end.

(** What a TEXT column stores: numbers are converted to text, NULL stays
    NULL. *)
Definition text_affinity (v : sqlval) : option string :=
  match v with
  | SqlNull => None
  | SqlInt z => Some (pretty z)
  | SqlReal f => Some (real_text f)
  | SqlText s => Some s
  end.

(** [command TEXT NOT NULL] *)
Definition not_null (v : option string) : result string :=
  match v with
  | Some s => Ok s
  | None => Raise IntegrityError
  end.

(** The value a TEXT column holds for a field of the descriptor. *)
Definition stored_text (v : option json) : result (option string) :=
  p ← bind_param v; mret (text_affinity p).

(** [id TEXT PRIMARY KEY]: a NULL id is accepted and collides with nothing. *)
Definition primary_key_taken (id : option string) (l : list job) : bool :=
  match id with
  | Some x => existsb (has_id x) l
  | None => false
  end.

(** The INSERT statement: the parameters are bound in order, then the row is
    checked against the constraints. *)
Definition insert_job (ts : string) (data : descriptor) (d : db) : result db :=
  p_id ← bind_param (d_id data);
  p_command ← bind_param (d_command data);
  p_max_retries ← bind_int (default DEFAULT_MAX_RETRIES (d_max_retries data));
  p_priority ← bind_int (default 0 (d_priority data));
  command ← not_null (text_affinity p_command);
  let id := text_affinity p_id in
  if primary_key_taken id (jobs d) then Raise IntegrityError
  else
    Ok (with_jobs d
          (jobs d ++ [mkJob id command "pending" 0 p_max_retries
                            ts ts p_priority (d_run_at data)])).

Definition enqueue (ts : string) (data : descriptor) (d : db)
  : result message * db :=
  let job_id := d_id data in
  if negb (truthy job_id) then (Raise (ClickException MustIncludeId), d)
  else
    let command := d_command data in
    if negb (truthy command) then (Raise (ClickException MustIncludeCommand), d)
    else
      match insert_job ts data d with
      | Ok d' => (Ok Enqueued, d')
      | Raise IntegrityError => (Raise (ClickException JobAlreadyExists), d)
      | Raise e => (Raise e, d)
      end.

(** *** Execution and job logs *)

Definition nl : string := String "010"%char "".

(** [os.path.join] on POSIX, two components. *)
Definition path_join (a b : string) : string :=
  if String.prefix "/" b then b
  else if String.eqb a "" then b
  else if String.eqb (String.substring (String.length a - 1) 1 a) "/"
       then a +:+ b
       else a +:+ "/" +:+ b.

(** [f"{job_id}"] for the id of a row: [None] prints as "None". *)
Definition id_text (job_id : option string) : string := default "None" job_id.

Definition log_path (log_dir : string) (job_id : option string) : string :=
  path_join log_dir ("job_" +:+ id_text job_id +:+ ".log").

(** The bytes one call of [write_job_log] writes. *)
Definition log_entry (t stdout_bytes stderr_bytes : string) : string :=
  "--- START LOG ENTRY: " +:+ t +:+ " ---" +:+ nl
  +:+ (if negb (String.eqb stdout_bytes "")
       then "--- STDOUT ---" +:+ nl +:+ stdout_bytes +:+ nl else "")
  +:+ (if negb (String.eqb stderr_bytes "")
       then "--- STDERR ---" +:+ nl +:+ stderr_bytes +:+ nl else "")
  +:+ "--- END LOG ENTRY ---" +:+ nl +:+ nl.

(** The log directory as a map from path to file content. [opened] tells
    whether [open] succeeded (writes to an open file succeed); when it did
    not the call raises ([None]) and nothing is written. Mode "ab" appends
    (creating the file), "wb" truncates. *)
Definition write_job_log (opened : bool) (log_dir t : string)
    (job_id : option string) (stdout_bytes stderr_bytes : string)
    (append : bool) (fs : gmap string string)
  : option string * gmap string string :=
  let path := log_path log_dir job_id in
  if negb opened then (None, fs)
  else
    let old := if append then default "" (fs !! path) else "" in
    (Some path, <[path := old +:+ log_entry t stdout_bytes stderr_bytes]> fs).

(** What [subprocess.run] did: the process ran and exited, or the call
    raised [e] (with [str(e)] the message). *)
Inductive run_outcome :=
| Exited (returncode : Z) (stdout stderr : string)
| RunRaised (msg : string).

(** [opened1] is the [open] of the write in the [try] block (or, when
    [subprocess.run] raised, of the write in the handler); when the write in
    the [try] block raised, [write_error] is the [str(e)] of its exception and
    [opened2] the [open] of the handler's write. [None] is an exception that
    leaves the function: the handler's own write raised. *)
Definition execute_job_with_logging (opened1 : bool) (write_error : string)
    (opened2 : bool) (log_dir t1 t2 : string) (job : row) (run : run_outcome)
    (fs : gmap string string) : option (bool * Z) * gmap string string :=
  let job_id := row_id job in
  match run with
  | Exited returncode stdout stderr =>
      match write_job_log opened1 log_dir t1 job_id stdout stderr true fs with
      | (Some _, fs') => (Some (returncode =? 0, returncode), fs')
      | (None, fs') =>
          match write_job_log opened2 log_dir t2 job_id "" write_error
                              true fs' with
          | (Some _, fs'') => (Some (false, -1), fs'')
          | (None, fs'') => (None, fs'')
          end
      end
  | RunRaised msg =>
      match write_job_log opened1 log_dir t1 job_id "" msg true fs with
      | (Some _, fs') => (Some (false, -1), fs')
      | (None, fs') => (None, fs')
      end
  end.

(** One pass of the loop with the execution spelled out: claim, run the
    command and log it, transition. The last component is [None] when nothing
    was claimed; [Some (job, None)] when [execute_job_with_logging] raised,
    which ends the worker with the job left in state processing. *)
Definition process_job (max_retries_conf backoff_base_conf : pyval)
    (lock : bool) (t_sel t_upd : string)
    (opened1 : bool) (write_error : string) (opened2 : bool)
    (log_dir t1 t2 : string) (run : run_outcome) (t_fin : string)
    (d : db) (fs : gmap string string)
  : option (row * option (result outcome)) * db * gmap string string :=
  match fetch_pending_job lock t_sel t_upd d with
  | (None, d') => (None, d', fs)
  | (Some job, d') =>
      match execute_job_with_logging opened1 write_error opened2
                                     log_dir t1 t2 job run fs with
      | (None, fs') => (Some (job, None), d', fs')
      | (Some (success, returncode), fs') =>
          let '(r, d'') :=
            finish_job max_retries_conf backoff_base_conf job success t_fin d' in
          (Some (job, Some r), d'', fs')
      end
  end.

(** *** The running system

    Workers are separate processes that share the database. A worker holds
    the configuration it read when it started and, between its claim and its
    transition, the row it claimed. Every statement and the transaction of
    the claim are atomic; [dlq retry] runs its SELECT and its UPDATE as two
    statements with no transaction around them, so other processes can run in
    between: [w_retries] holds the ids of the retries that are between the
    two. *)

Inductive command :=
| CmdEnqueue (ts : string) (data : descriptor)
| CmdDlqRetry (t job_id : string)
| CmdDlqPurge
| CmdConfigSet (key value : string)
| CmdPause (t job_id : string)
| CmdResume (t job_id : string)
| CmdCancel (job_id : string).

Definition run_command (c : command) (d : db) : db :=
  match c with
  | CmdEnqueue ts data => (enqueue ts data d).2
  | CmdDlqRetry t x => (dlq_retry t x d).2
  | CmdDlqPurge => (dlq_purge d).2
  | CmdConfigSet k v => (config_set k v d).2
  | CmdPause t x => (pause_job t x d).2
  | CmdResume t x => (resume_job t x d).2
  | CmdCancel x => (cancel_job x d).2
  end.

Record worker := mkWorker {
  max_retries_conf : pyval;
  backoff_base_conf : pyval;
  current : option row
}.

Record world := mkWorld {
  w_db : db;
  w_workers : gmap nat worker;
  w_retries : list string
}.

(** [Cli c] runs a command with nothing in between its statements;
    [DlqRetrySelect] and [DlqRetryUpdate] are the two statements of a
    [dlq retry] that other events separate. *)
Inductive event :=
| Start (w : nat)
| Claim (w : nat) (lock : bool) (t_sel t_upd : string)
| Finish (w : nat) (success : bool) (t : string)
| Cli (c : command)
| DlqRetrySelect (job_id : string)
| DlqRetryUpdate (t job_id : string).

Definition is_worker_event (e : event) : bool :=
  match e with
  | Start _ | Claim _ _ _ _ | Finish _ _ _ => true
  | _ => false
  end.

Fixpoint remove_one (x : string) (l : list string) : list string :=
  match l with
  | [] => []
  | y :: l' => if String.eqb y x then l' else y :: remove_one x l'
  end.

Definition step (e : event) (W : world) : world :=
  match e with
  | Start w =>
      match w_workers W !! w with
      | Some _ => W
      | None =>
          let k := mkWorker (load_max_retries (w_db W))
                            (load_backoff_base (w_db W)) None in
          mkWorld (w_db W) (<[w := k]> (w_workers W)) (w_retries W)
      end
  | Claim w lock t_sel t_upd =>
      match w_workers W !! w with
      | Some (mkWorker mr bb None) =>
          let '(job, d') := fetch_pending_job lock t_sel t_upd (w_db W) in
          mkWorld d' (<[w := mkWorker mr bb job]> (w_workers W)) (w_retries W)
      | _ => W
      end
  | Finish w success t =>
      match w_workers W !! w with
      | Some (mkWorker mr bb (Some job)) =>
          match finish_job mr bb job success t (w_db W) with
          | (Ok _, d') =>
              mkWorld d' (<[w := mkWorker mr bb None]> (w_workers W))
                      (w_retries W)
          | (Raise _, d') =>
              mkWorld d' (delete w (w_workers W)) (w_retries W)
          end
      | _ => W
      end
  | Cli c => mkWorld (run_command c (w_db W)) (w_workers W) (w_retries W)
  | DlqRetrySelect x =>
      match dlq_retry_select x (w_db W) with
      | Some _ => mkWorld (w_db W) (w_workers W) (x :: w_retries W)
      | None => W
      end
  | DlqRetryUpdate t x =>
      if existsb (String.eqb x) (w_retries W)
      then mkWorld (dlq_retry_update t x (w_db W)) (w_workers W)
                   (remove_one x (w_retries W))
      else W
  end.

Definition run (es : list event) (W : world) : world :=
  foldl (λ W e, step e W) W es.

Definition initial_world : world := mkWorld empty_db ∅ [].

Definition reachable (W : world) : Prop := ∃ es, W = run es initial_world.

(** *** Invariants of the jobs table *)

(** The primary key: no two rows share an id that is not NULL. *)
Definition unique_ids (d : db) : Prop := NoDup (omap job_id (jobs d)).

(** Every statement the program runs against the jobs table has one of three
    shapes: an UPDATE that leaves id and command alone, a DELETE, or the
    INSERT of a row whose command is not empty and whose id is NULL or a
    fresh text that is not empty. *)
Inductive table_change : list job → list job → Prop :=
| tc_same l : table_change l l
| tc_update l p f :
    (∀ r, job_id (f r) = job_id r ∧ job_command (f r) = job_command r) →
    table_change l (sql_update p f l)
| tc_delete l p : table_change l (sql_delete p l)
| tc_insert l r :
    job_id r ≠ Some "" → job_command r ≠ "" →
    primary_key_taken (job_id r) l = false →
    table_change l (l ++ [r]).

(** A worker that is between its claim and its transition holds a row whose
    job is in state processing, and no two workers hold the same job (a job
    being known by its id). *)
Definition claims_consistent (W : world) : Prop :=
  (∀ w k job x, w_workers W !! w = Some k → current k = Some job →
     row_id job = Some x →
     ∃ j, j ∈ jobs (w_db W) ∧ job_id j = Some x
          ∧ job_state j = "processing")
  ∧ (∀ w1 w2 k1 k2 job1 job2 x,
       w1 ≠ w2 →
       w_workers W !! w1 = Some k1 → w_workers W !! w2 = Some k2 →
       current k1 = Some job1 → current k2 = Some job2 →
       row_id job1 = Some x → row_id job2 ≠ Some x).

(** No worker holds a claim on the job with id [x]. *)
Definition not_held (x : string) (W : world) : Prop :=
  ∀ w k job, w_workers W !! w = Some k → current k = Some job →
    row_id job ≠ Some x.

(** A row as the program writes it: one of the five states, and attempts
    that are not negative. A world is well formed when its rows are and the
    rows held by workers have attempts that are not negative. *)
Definition row_ok (j : job) : Prop :=
  job_state j ∈ ["pending"; "processing"; "completed"; "dead"; "paused"]
  ∧ 0 ≤ job_attempts j.

Definition world_ok (W : world) : Prop :=
  (∀ j, j ∈ jobs (w_db W) → row_ok j)
  ∧ (∀ w k job, w_workers W !! w = Some k → current k = Some job →
       0 ≤ row_attempts job).

(** The events other than a pause, a cancel and the two halves of a DLQ
    retry that does not run in one go. *)
Definition no_pause_cancel (e : event) : bool :=
  match e with
  | Cli (CmdPause _ _) | Cli (CmdCancel _)
  | DlqRetrySelect _ | DlqRetryUpdate _ _ => false
  | _ => true
  end.

End program.

(** ** A runtime to evaluate with

    [int()] on ASCII text in base 10: surrounding whitespace is stripped, one
    sign is allowed, digits may be separated by single underscores, and at
    most 4300 digits are accepted. [str] of an int with the same limit. It
    serves to run the definitions on examples; the theorems hold for every
    runtime. *)

Definition is_space (c : ascii) : bool :=
  let n := N_of_ascii c in
  ((9 <=? n) && (n <=? 13) || (n =? 32))%N.

Definition is_digit (c : ascii) : bool :=
  let n := N_of_ascii c in ((48 <=? n) && (n <=? 57))%N.

Definition digit_value (c : ascii) : Z := Z.of_N (N_of_ascii c) - 48.

Fixpoint lstrip (l : list ascii) : list ascii :=
  match l with
  | c :: l' => if is_space c then lstrip l' else l
  | [] => []
  end.

Definition strip (l : list ascii) : list ascii :=
  rev (lstrip (rev (lstrip l))).

(** [after_us] is true at the start and right after an underscore: there a
    digit must follow. *)
Fixpoint digits (acc : Z) (after_us : bool) (l : list ascii) : option Z :=
  match l with
  | [] => if after_us then None else Some acc
  | c :: l' =>
      if is_digit c then digits (10 * acc + digit_value c) false l'
      else if Ascii.eqb c "_" then
        (if after_us then None else digits acc true l')
      else None
  end.

Definition parse_int (s : string) : option Z :=
  let l := strip (list_ascii_of_string s) in
  if (4300 <? length (List.filter is_digit l))%nat then None
  else
    match l with
    | c :: l' =>
        if Ascii.eqb c "-" then Z.opp <$> digits 0 true l'
        else if Ascii.eqb c "+" then digits 0 true l'
        else digits 0 true (c :: l')
    | [] => None
    end.

(** The least int with more than 4300 digits. *)
Definition str_digits_bound : Z := Eval vm_compute in 10 ^ 4300.

Definition ascii_runtime : Runtime := {|
  int_of_text := parse_int;
  int_printable := λ z, Z.abs z <? str_digits_bound;
  int_printable_small := λ z Hz,
    proj2 (Z.ltb_lt (Z.abs z) str_digits_bound)
      (Z.lt_le_trans (Z.abs z) (10 ^ 640) str_digits_bound Hz
         ltac:(vm_compute; intros Hgt; discriminate Hgt));
  real_text := λ _, "1.0";
  real_text_nonempty := λ _, ltac:(discriminate)
|}.

(** ** Timestamps as instants

    The instant that an ISO 8601 timestamp with a UTC offset denotes, in
    microseconds since 1970-01-01T00:00:00Z. The program never computes it
    (it compares the texts); it is the reading under which [run_at <= now]
    compares times. *)








(** ** Scenarios *)

Section scenarios.
Context `{Runtime}.

(** [config set max_retries 5], then two jobs: [j1] without a [max_retries]
    field, [j2] with [max_retries] 0 and a lower priority. *)
Definition demo_j1 : descriptor :=
  mkDescriptor (Some (JStr "j1")) (Some (JStr "exit 1")) None (Some 5) None.

Definition demo_j2 : descriptor :=
  mkDescriptor (Some (JStr "j2")) (Some (JStr "exit 1")) (Some 0) (Some 1) None.

Definition demo_db : db :=
  (enqueue "2025-01-01T00:00:02+00:00" demo_j2
     (enqueue "2025-01-01T00:00:01+00:00" demo_j1
        (config_set "max_retries" "5" empty_db).2).2).2.

(** A worker started on [demo_db] whose jobs always fail. *)
Definition demo_pass (d : db) : option (row * result outcome) * db :=
  worker_pass (load_max_retries demo_db) (load_backoff_base demo_db)
              true "2025-01-01T00:01:00+00:00" "2025-01-01T00:01:00+00:00"
              false "2025-01-01T00:01:01+00:00" d.

(** After three failing passes [j1] is in the DLQ. *)
Definition demo_dead_db : db :=
  (demo_pass (demo_pass (demo_pass demo_db).2).2).2.

(** A job with [max_retries] 3 whose command always fails is paused and
    resumed while worker 1 runs it; worker 2 claims it and runs it three
    times, which moves it to the DLQ. Worker 1 is still running. *)
Definition race_job : descriptor :=
  mkDescriptor (Some (JStr "j")) (Some (JStr "exit 1")) (Some 3) None None.

Definition race_events : list event :=
  [ Cli (CmdEnqueue "2025-01-01T00:00:00+00:00" race_job);
    Start 1; Start 2;
    Claim 1 true "2025-01-01T00:00:01+00:00" "2025-01-01T00:00:01+00:00";
    Cli (CmdPause "2025-01-01T00:00:02+00:00" "j");
    Cli (CmdResume "2025-01-01T00:00:03+00:00" "j");
    Claim 2 true "2025-01-01T00:00:04+00:00" "2025-01-01T00:00:04+00:00";
    Finish 2 false "2025-01-01T00:00:05+00:00";
    Claim 2 true "2025-01-01T00:00:07+00:00" "2025-01-01T00:00:07+00:00";
    Finish 2 false "2025-01-01T00:00:08+00:00";
    Claim 2 true "2025-01-01T00:00:12+00:00" "2025-01-01T00:00:12+00:00";
    Finish 2 false "2025-01-01T00:00:13+00:00" ].

Definition race_world : world := run race_events initial_world.






(** [{"id": NaN, "command": "echo hi"}]: [json.loads] reads the id as the
    float NaN, which is true and is stored as NULL. *)
Definition nan_job : descriptor :=
  mkDescriptor (Some (JFloat S754_nan)) (Some (JStr "echo hi")) None None None.

Definition nan_db : db :=
  (enqueue "2025-01-01T00:00:00+00:00" nan_job empty_db).2.

End scenarios.

(** * Properties *)

(** ** Text order *)

Lemma string_leb_refl (a : string) : String.leb a a = true.
Proof.
  destruct (String.leb_total a a); done.
Qed.

Lemma string_compare_le_trans (a b c : string) :
  String.compare a b ≠ Gt → String.compare b c ≠ Gt → String.compare a c ≠ Gt.
Proof.
  revert b c. induction a as [|x a IH]; intros [|y b] [|z c]; simpl; try done.
  unfold Ascii.compare.
  destruct (N.compare_spec (N_of_ascii x) (N_of_ascii y)) as [Hxy|Hxy|Hxy],
           (N.compare_spec (N_of_ascii y) (N_of_ascii z)) as [Hyz|Hyz|Hyz],
           (N.compare_spec (N_of_ascii x) (N_of_ascii z)) as [Hxz|Hxz|Hxz];
    try done; try lia.
  apply IH.
Qed.

Lemma string_leb_trans (a b c : string) :
  String.leb a b = true → String.leb b c = true → String.leb a c = true.
Proof.
  unfold String.leb. intros Hab Hbc.
  pose proof (string_compare_le_trans a b c) as H.
  destruct (String.compare a b), (String.compare b c), (String.compare a c);
    try done; exfalso; by apply H.
Qed.

(** ** The claim order is a total preorder *)

Lemma claim_order_total (a b : job) :
  claim_order a b = true ∨ claim_order b a = true.
Proof.
  unfold claim_order.
  destruct (Z.lt_total (job_priority a) (job_priority b)) as [H|[H|H]].
  - right. apply orb_true_iff. left. by apply Z.ltb_lt.
  - rewrite H, Z.eqb_refl, Z.ltb_irrefl. simpl.
    apply String.leb_total.
  - left. apply orb_true_iff. left. by apply Z.ltb_lt.
Qed.

Lemma claim_order_spec (a b : job) :
  claim_order a b = true ↔
  job_priority b < job_priority a
  ∨ job_priority a = job_priority b
    ∧ String.leb (job_created_at a) (job_created_at b) = true.
Proof.
  unfold claim_order.
  rewrite orb_true_iff, andb_true_iff, Z.ltb_lt, Z.eqb_eq. done.
Qed.

Lemma claim_order_trans (a b c : job) :
  claim_order a b = true → claim_order b c = true → claim_order a c = true.
Proof.
  rewrite !claim_order_spec.
  intros [H1|[H1 L1]] [H2|[H2 L2]]; [left; lia|left; lia|left; lia|].
  right. split; [lia|]. by eapply string_leb_trans.
Qed.

(** ** ORDER BY ... LIMIT 1 *)

Section order_by.
Variable le : job → job → bool.
Hypothesis le_total : ∀ a b, le a b = true ∨ le b a = true.
Hypothesis le_trans : ∀ a b c, le a b = true → le b c = true → le a c = true.

Lemma elem_of_insert_by (x y : job) (l : list job) :
  y ∈ insert_by le x l ↔ y = x ∨ y ∈ l.
Proof.
  induction l as [|z l IH]; simpl.
  - rewrite list_elem_of_singleton, elem_of_nil. tauto.
  - destruct (le x z); rewrite !elem_of_cons; [done|].
    rewrite IH. tauto.
Qed.

Lemma elem_of_order_by (y : job) (l : list job) :
  y ∈ order_by le l ↔ y ∈ l.
Proof.
  induction l as [|x l IH]; simpl; [done|].
  rewrite elem_of_insert_by, elem_of_cons, IH. done.
Qed.

(** The first row of the sorted result is in the input and sorts no later
    than every row of the input. *)
Lemma head_order_by_least (l : list job) (h : job) :
  head (order_by le l) = Some h →
  h ∈ l ∧ ∀ y, y ∈ l → le h y = true.
Proof using le_total le_trans.
  revert h. induction l as [|x l IH]; intros h; simpl; [done|].
  intros Hh. split.
  { apply elem_of_order_by with (l := x :: l). simpl.
    destruct (insert_by le x (order_by le l)); simplify_eq/=. left. }
  assert (le x x = true) as Hxx by (destruct (le_total x x); done).
  destruct (order_by le l) as [|h' s] eqn:Hs.
  - simpl in Hh. simplify_eq.
    assert (l = []) as ->.
    { destruct l as [|z l]; [done|]. exfalso.
      assert (z ∈ order_by le (z :: l)) as Hz by (apply elem_of_order_by; left).
      rewrite Hs in Hz. by apply elem_of_nil in Hz. }
    intros y ->%list_elem_of_singleton. done.
  - destruct (IH h' eq_refl) as [_ Hleast].
    simpl in Hh. destruct (le x h') eqn:E; simplify_eq/=.
    + intros y [->|Hy]%elem_of_cons; [done|].
      eapply le_trans; [exact E|]. by apply Hleast.
    + intros y [->|Hy]%elem_of_cons; [|by apply Hleast].
      destruct (le_total x h); congruence.
Qed.

Lemma head_order_by_none (l : list job) :
  head (order_by le l) = None → l = [].
Proof.
  destruct l as [|x l]; [done|]. simpl.
  destruct (order_by le l) as [|y s]; simpl; [done|].
  by destruct (le x y).
Qed.
End order_by.

(** ** SQL statements on the jobs table *)

Lemma has_id_true (x : string) (r : job) :
  has_id x r = true ↔ job_id r = Some x.
Proof.
  unfold has_id. destruct (job_id r) as [y|]; [|done].
  rewrite String.eqb_eq. split; congruence.
Qed.

Lemma has_id_false (x : string) (r : job) :
  has_id x r = false ↔ job_id r ≠ Some x.
Proof.
  rewrite <- has_id_true. destruct (has_id x r); split; congruence.
Qed.

Lemma id_is_false (p : option string) (r : job) :
  job_id r ≠ p → id_is p r = false.
Proof.
  destruct p as [x|]; [|done]. simpl. apply has_id_false.
Qed.

Lemma in_state_true (s : string) (r : job) : in_state s r = true ↔ job_state r = s.
Proof. apply String.eqb_eq. Qed.

Lemma in_state_false (s : string) (r : job) : in_state s r = false ↔ job_state r ≠ s.
Proof. apply String.eqb_neq. Qed.

Lemma elem_of_List_filter (p : job → bool) (l : list job) (r : job) :
  r ∈ List.filter p l ↔ r ∈ l ∧ p r = true.
Proof. rewrite !list_elem_of_In. apply filter_In. Qed.

Lemma eligible_spec (now : string) (j : job) :
  eligible now j = true ↔
  job_state j = "pending"
  ∧ (job_run_at j = None
     ∨ ∃ t, job_run_at j = Some t ∧ String.leb t now = true).
Proof.
  unfold eligible, run_at_due.
  rewrite andb_true_iff, in_state_true.
  destruct (job_run_at j) as [t|].
  - split; intros [Hs Ht]; (split; [done|]).
    + right. by exists t.
    + destruct Ht as [|(t' & [= <-] & ?)]; done.
  - split; intros [Hs _]; (split; [done|]); [by left|done].
Qed.

(** An UPDATE that keeps ids commutes with the lookup by id. *)
Lemma find_sql_update (y : string) (p : job → bool) (f : job → job) (l : list job) :
  (∀ r, job_id (f r) = job_id r) →
  List.find (has_id y) (sql_update p f l)
  = (λ r, if p r then f r else r) <$> List.find (has_id y) l.
Proof.
  intros Hf. induction l as [|r l IH]; simpl; [done|].
  assert (has_id y (if p r then f r else r) = has_id y r) as ->.
  { unfold has_id. destruct (p r); by rewrite ?Hf. }
  by destruct (has_id y r).
Qed.

Lemma sql_update_ids (p : job → bool) (f : job → job) (l : list job) :
  (∀ r, job_id (f r) = job_id r) →
  omap job_id (sql_update p f l) = omap job_id l.
Proof.
  intros Hf. induction l as [|r l IH]; [done|].
  change (sql_update p f (r :: l))
    with ((if p r then f r else r) :: sql_update p f l).
  change (omap job_id (?a :: ?k))
    with (match job_id a with Some y => y :: omap job_id k
          | None => omap job_id k end).
  assert (job_id (if p r then f r else r) = job_id r) as ->
    by (destruct (p r); by rewrite ?Hf).
  by rewrite IH.
Qed.

Lemma sql_update_lookup (p : job → bool) (f : job → job) (l : list job) (i : nat) :
  sql_update p f l !! i = (λ r, if p r then f r else r) <$> l !! i.
Proof. apply list_lookup_fmap. Qed.

Lemma find_sql_delete_other (x y : string) (l : list job) :
  x ≠ y → List.find (has_id x) (sql_delete (has_id y) l) = List.find (has_id x) l.
Proof.
  intros Hxy. induction l as [|r l IH]; simpl; [done|].
  destruct (has_id y r) eqn:Ey; simpl.
  - apply has_id_true in Ey.
    assert (has_id x r = false) as -> by (apply has_id_false; congruence).
    done.
  - destruct (has_id x r); [done|]. apply IH.
Qed.

Lemma find_sql_delete_same (x : string) (l : list job) :
  List.find (has_id x) (sql_delete (has_id x) l) = None.
Proof.
  induction l as [|r l IH]; simpl; [done|].
  destruct (has_id x r) eqn:Ex; simpl; [done|]. by rewrite Ex.
Qed.

Lemma find_has_id_elem (x : string) (l : list job) (j : job) :
  List.find (has_id x) l = Some j → j ∈ l ∧ job_id j = Some x.
Proof.
  intros H. apply find_some in H as [H1 H2].
  split; [by apply list_elem_of_In|by apply has_id_true].
Qed.

Lemma elem_of_omap_job_id (x : string) (l : list job) :
  x ∈ omap job_id l ↔ ∃ j, j ∈ l ∧ job_id j = Some x.
Proof. apply list_elem_of_omap. Qed.

(** With a primary key, the lookup finds every row by its id. *)
Lemma find_has_id_unique (l : list job) (j : job) (x : string) :
  NoDup (omap job_id l) → j ∈ l → job_id j = Some x →
  List.find (has_id x) l = Some j.
Proof.
  intros Hnd Hj Hid. induction l as [|r l IH]; simpl;
    [by apply elem_of_nil in Hj|].
  apply elem_of_cons in Hj as [<-|Hj].
  - assert (has_id x j = true) as -> by by apply has_id_true.
    done.
  - simpl in Hnd. destruct (job_id r) as [y|] eqn:Er.
    + apply NoDup_cons in Hnd as [Hr Hl].
      assert (has_id x r = false) as ->.
      { apply has_id_false. rewrite Er. intros [= ->]. apply Hr.
        apply elem_of_omap_job_id. by exists j. }
      by apply IH.
    + assert (has_id x r = false) as ->
        by (apply has_id_false; by rewrite Er).
      by apply IH.
Qed.

Lemma rowcount_zero (p : job → bool) (l : list job) :
  rowcount p l = 0%nat ↔ ∀ r, r ∈ l → p r = false.
Proof.
  unfold rowcount. induction l as [|r l IH]; simpl.
  - split; [by intros _ r ?%elem_of_nil|done].
  - destruct (p r) eqn:E; simpl.
    + split; [done|]. intros H. specialize (H r (list_elem_of_here _ _)). congruence.
    + rewrite IH. split.
      * intros H y [->|Hy]%elem_of_cons; [done|by apply H].
      * intros H y Hy. apply H. by right.
Qed.

Lemma sql_update_no_match (p : job → bool) (f : job → job) (l : list job) :
  (∀ r, r ∈ l → p r = false) → sql_update p f l = l.
Proof.
  intros H. unfold sql_update. induction l as [|r l IH]; simpl; [done|].
  rewrite (H r) by left. f_equal. apply IH. intros y Hy. apply H. by right.
Qed.

(** [WHERE id = NULL] matches no row. *)
Lemma sql_update_null_id (f : job → job) (l : list job) :
  sql_update (id_is None) f l = l.
Proof. by apply sql_update_no_match. Qed.

Lemma with_jobs_same (d : db) : with_jobs d (jobs d) = d.
Proof. by destruct d. Qed.

(** ** The claim protocol *)

Lemma fetch_pending_job_some lock t_sel t_upd d snap d' :
  fetch_pending_job lock t_sel t_upd d = (Some snap, d') →
  lock = true
  ∧ ∃ j, j ∈ jobs d
      ∧ eligible t_sel j = true
      ∧ (∀ y, y ∈ jobs d → eligible t_sel y = true → claim_order j y = true)
      ∧ snap = select_row j
      ∧ d' = with_jobs d (sql_update (id_is (job_id j))
                                     (set_state "processing" t_upd) (jobs d)).
Proof.
  unfold fetch_pending_job. destruct lock; simpl; [|done].
  destruct (head _) as [j|] eqn:Hhead; [|done].
  intros [= <- <-]. split; [done|].
  apply (head_order_by_least _ claim_order_total claim_order_trans) in Hhead
    as [[Hj He]%elem_of_List_filter Hleast].
  exists j. repeat split; try done.
  intros y Hy Hey. apply Hleast. by apply elem_of_List_filter.
Qed.

Lemma fetch_pending_job_none lock t_sel t_upd d d' :
  fetch_pending_job lock t_sel t_upd d = (None, d') →
  d' = d ∧ (lock = true → ∀ j, j ∈ jobs d → eligible t_sel j = false).
Proof.
  unfold fetch_pending_job. destruct lock; simpl; [|by intros [= <-]].
  destruct (head _) as [j|] eqn:Hhead; [done|].
  intros [= <-]. split; [done|]. intros _ j Hj.
  apply head_order_by_none in Hhead.
  destruct (eligible t_sel j) eqn:E; [|done].
  assert (j ∈ List.filter (eligible t_sel) (jobs d)) as Hin
    by by apply elem_of_List_filter.
  rewrite Hhead in Hin. by apply elem_of_nil in Hin.
Qed.



(** ** DLQ retry and pause *)

Lemma find_none_iff (p : job → bool) (l : list job) :
  List.find p l = None ↔ ∀ r, r ∈ l → p r = false.
Proof.
  split.
  - intros H r Hr. apply list_elem_of_In in Hr.
    by apply (find_none _ _ H).
  - intros H. destruct (List.find p l) as [r|] eqn:E; [|done].
    apply find_some in E as [Hin Hp]. apply list_elem_of_In in Hin.
    rewrite (H r Hin) in Hp. done.
Qed.

Lemma find_dead_some (x : string) (l : list job) :
  (∃ j, j ∈ l ∧ job_id j = Some x ∧ job_state j = "dead") ↔
  ∃ j, List.find (λ r, has_id x r && in_state "dead" r) l = Some j.
Proof.
  split.
  - intros (j & Hj & Hid & Hst).
    destruct (List.find _ l) as [r|] eqn:E; [by exists r|].
    rewrite find_none_iff in E. specialize (E j Hj).
    apply andb_false_iff in E as [E%has_id_false|E%in_state_false]; done.
  - intros [j Hj]. apply find_some in Hj as [Hin [Hid Hst]%andb_true_iff].
    exists j. split; [by apply list_elem_of_In|].
    split; [by apply has_id_true|by apply in_state_true].
Qed.

(** C6: [dlq_retry] moves the job back exactly when a row with that id is in
    state dead: then every row with that id gets state pending, attempts 0 and
    a fresh updated_at, and nothing else changes. For a missing id, or a job
    in any other state, it reports that the job is not in the DLQ and the
    database is unchanged. *)
Theorem C6_dlq_retry_iff_dead (t x : string) (d : db) :
  ((∃ j, j ∈ jobs d ∧ job_id j = Some x ∧ job_state j = "dead") ↔
   (dlq_retry t x d).1 = MovedBackToPending)
  ∧ ((∃ j, j ∈ jobs d ∧ job_id j = Some x ∧ job_state j = "dead") →
     config (dlq_retry t x d).2 = config d
     ∧ length (jobs (dlq_retry t x d).2) = length (jobs d)
     ∧ (∀ i r, jobs d !! i = Some r → job_id r ≠ Some x →
          jobs (dlq_retry t x d).2 !! i = Some r)
     ∧ (∀ i r, jobs d !! i = Some r → job_id r = Some x →
          jobs (dlq_retry t x d).2 !! i =
            Some (mkJob (job_id r) (job_command r) "pending" 0
                        (job_max_retries r) (job_created_at r) t
                        (job_priority r) (job_run_at r))))
  ∧ (¬ (∃ j, j ∈ jobs d ∧ job_id j = Some x ∧ job_state j = "dead") →
     dlq_retry t x d = (NotFoundInDlq, d)).
Proof.
  rewrite find_dead_some. unfold dlq_retry, dlq_retry_select, dlq_retry_update.
  destruct (List.find _ (jobs d)) as [j|] eqn:E; simpl.
  - split; [split; [done|by exists j]|]. split.
    + intros _. repeat split.
      * unfold sql_update. by rewrite length_map.
      * intros i r Hi Hne. rewrite sql_update_lookup, Hi. simpl.
        by assert (has_id x r = false) as -> by by apply has_id_false.
      * intros i r Hi Heq. rewrite sql_update_lookup, Hi. simpl.
        by assert (has_id x r = true) as -> by by apply has_id_true.
    + intros H. exfalso. apply H. by exists j.
  - split; [split; [by intros [? ?]|done]|]. split; [by intros [? ?]|done].
Qed.

(** C7: [pause_job] on an existing id sets the state to paused and refreshes
    updated_at whatever the current state of the job is (no condition on it
    appears below), leaving every other field and every other row as they
    were; only an id with no row is reported as not found, and then nothing
    changes. *)
Theorem C7_pause_any_state (t x : string) (d : db) :
  ((∃ j, j ∈ jobs d ∧ job_id j = Some x) →
   (pause_job t x d).1 = JobPaused
   ∧ config (pause_job t x d).2 = config d
   ∧ length (jobs (pause_job t x d).2) = length (jobs d)
   ∧ (∀ i r, jobs d !! i = Some r → job_id r ≠ Some x →
        jobs (pause_job t x d).2 !! i = Some r)
   ∧ (∀ i r, jobs d !! i = Some r → job_id r = Some x →
        jobs (pause_job t x d).2 !! i =
          Some (mkJob (job_id r) (job_command r) "paused" (job_attempts r)
                      (job_max_retries r) (job_created_at r) t
                      (job_priority r) (job_run_at r))))
  ∧ (¬ (∃ j, j ∈ jobs d ∧ job_id j = Some x) → pause_job t x d = (NoJobFound, d)).
Proof.
  unfold pause_job.
  destruct (Nat.eqb (rowcount (has_id x) (jobs d)) 0) eqn:E.
  - apply Nat.eqb_eq in E. rewrite rowcount_zero in E. split.
    + intros (j & Hj & Hid). exfalso.
      specialize (E j Hj). apply has_id_false in E. done.
    + done.
  - apply Nat.eqb_neq in E. split.
    + intros _. simpl. repeat split.
      * unfold sql_update. by rewrite length_map.
      * intros i r Hi Hne. rewrite sql_update_lookup, Hi. simpl.
        by assert (has_id x r = false) as -> by by apply has_id_false.
      * intros i r Hi Heq. rewrite sql_update_lookup, Hi. simpl.
        by assert (has_id x r = true) as -> by by apply has_id_true.
    + intros Hno. exfalso. apply E. apply rowcount_zero.
      intros r Hr. apply has_id_false. intros Hid. apply Hno. by exists r.
Qed.

(** ** Decimal text *)

Lemma pretty_N_go_nonempty (x : N) (s : string) :
  s ≠ "" → pretty_N_go x s ≠ "".
Proof.
  revert s. induction (N.lt_wf_0 x) as [x _ IH]; intros s Hs.
  destruct (decide (x = 0)%N) as [->|Hx].
  - by rewrite pretty_N_go_0.
  - rewrite pretty_N_go_step by lia. apply IH; [|done].
    apply N.div_lt; lia.
Qed.

Lemma pretty_Z_nonempty (z : Z) : pretty z ≠ "".
Proof.
  assert (∀ p, pretty (N.pos p) ≠ "") as Hpos.
  { intros p. unfold pretty, pretty_N.
    destruct (decide (N.pos p = 0)%N) as [|_]; [done|].
    rewrite pretty_N_go_step by lia. by apply pretty_N_go_nonempty. }
  destruct z as [|p|p]; [done|apply Hpos|done].
Qed.

Lemma existsb_has_id (x : string) (l : list job) :
  existsb (has_id x) l = true ↔ ∃ j, j ∈ l ∧ job_id j = Some x.
Proof.
  rewrite existsb_exists. split; intros (j & Hj & Hid); exists j.
  - split; [by apply list_elem_of_In|by apply has_id_true].
  - split; [by apply list_elem_of_In|by apply has_id_true].
Qed.

Lemma set_state_keeps (s t : string) (r : job) :
  job_id (set_state s t r) = job_id r
  ∧ job_command (set_state s t r) = job_command r.
Proof. done. Qed.

Lemma set_state_attempts_keeps (s : string) (a : Z) (t : string) (r : job) :
  job_id (set_state_attempts s a t r) = job_id r
  ∧ job_command (set_state_attempts s a t r) = job_command r.
Proof. done. Qed.

Lemma fetch_pending_job_change lock t_sel t_upd d :
  table_change (jobs d) (jobs (fetch_pending_job lock t_sel t_upd d).2).
Proof.
  unfold fetch_pending_job. destruct lock; simpl; [|constructor].
  destruct (head _); simpl; [|constructor].
  apply tc_update. intros r. apply set_state_keeps.
Qed.

Lemma unique_ids_change (l l' : list job) :
  table_change l l' → NoDup (omap job_id l) → NoDup (omap job_id l').
Proof.
  intros [l0|l0 p f Hf|l0 p|l0 r _ _ Hfree] Hnd.
  - done.
  - rewrite sql_update_ids; [done|]. intros r. apply Hf.
  - unfold sql_delete. induction l0 as [|r l0 IH]; simpl; [done|].
    simpl in Hnd.
    assert (NoDup (omap job_id l0)) as Hnd'.
    { destruct (job_id r); [by apply NoDup_cons in Hnd as [_ ?]|done]. }
    destruct (p r); simpl; [by apply IH|].
    destruct (job_id r) as [y|] eqn:Er; [|by apply IH].
    apply NoDup_cons in Hnd as [Hr _].
    apply NoDup_cons. split; [|by apply IH].
    intros (r' & [Hin _]%elem_of_List_filter & Heq)%elem_of_omap_job_id.
    apply Hr. apply elem_of_omap_job_id. by exists r'.
  - rewrite omap_app. apply NoDup_app. split; [done|]. split.
    + simpl. destruct (job_id r) as [y|] eqn:Er; [|by intros ? ? ?%elem_of_nil].
      intros y' (r' & Hr' & Hid)%elem_of_omap_job_id Hy%list_elem_of_singleton.
      subst y'. simpl in Hfree.
      assert (existsb (has_id y) l0 = true) as Hex; [|congruence].
      apply existsb_has_id. by exists r'.
    + simpl. destruct (job_id r); [apply NoDup_singleton|apply NoDup_nil_2].
Qed.

Lemma nonempty_fields_change (l l' : list job) :
  table_change l l' →
  (∀ j, j ∈ l → job_id j ≠ Some "" ∧ job_command j ≠ "") →
  (∀ j, j ∈ l' → job_id j ≠ Some "" ∧ job_command j ≠ "").
Proof.
  intros [l0|l0 p f Hf|l0 p|l0 r Hid Hcmd _] H j Hj.
  - by apply H.
  - apply list_elem_of_fmap in Hj as (r & -> & Hr).
    destruct (p r); [|by apply H].
    destruct (Hf r) as [-> ->]. by apply H.
  - apply elem_of_List_filter in Hj as [Hj _]. by apply H.
  - apply elem_of_app in Hj as [Hj|Hj]; [by apply H|].
    apply list_elem_of_singleton in Hj. by subst.
Qed.

Section properties.
Context `{RT : Runtime}.

(** ** Enqueue *)

Lemma stored_text_nonempty (v : option json) (s : string) :
  truthy v = true → stored_text v = Ok (Some s) → s ≠ "".
Proof.
  unfold stored_text.
  destruct v as [[|b|z|f|s'|l|l]|]; simpl; try done.
  - destruct b; [|done]. by intros _ [= <-].
  - intros _. unfold bind_int. destruct (in_int64 z); [|done]. simpl.
    intros [= <-]. apply pretty_Z_nonempty.
  - intros _. destruct f; simpl; intros [= <-]; apply real_text_nonempty.
  - intros Ht [= <-]. apply negb_true_iff, String.eqb_neq in Ht. done.
Qed.

(** Either [enqueue] raises and the database is as before, or it appends
    one row built from the descriptor. *)
Lemma enqueue_cases (ts : string) (data : descriptor) (d : db) :
  (∃ e, enqueue ts data d = (Raise e, d))
  ∨ (∃ id command,
       truthy (d_id data) = true
       ∧ truthy (d_command data) = true
       ∧ stored_text (d_id data) = Ok id
       ∧ stored_text (d_command data) = Ok (Some command)
       ∧ primary_key_taken id (jobs d) = false
       ∧ enqueue ts data d =
           (Ok Enqueued,
            with_jobs d
              (jobs d ++ [mkJob id command "pending" 0
                                (default DEFAULT_MAX_RETRIES (d_max_retries data))
                                ts ts (default 0 (d_priority data))
                                (d_run_at data)]))).
Proof.
  unfold enqueue, insert_job, stored_text.
  destruct (truthy (d_id data)) eqn:Tid; simpl; [|left; by eexists].
  destruct (truthy (d_command data)) eqn:Tcmd; simpl; [|left; by eexists].
  destruct (bind_param (d_id data)) as [pid|e] eqn:Bid; simpl;
    [|left; destruct e; by eexists].
  destruct (bind_param (d_command data)) as [pcmd|e] eqn:Bcmd; simpl;
    [|left; destruct e; by eexists].
  unfold bind_int.
  destruct (in_int64 (default _ (d_max_retries data))); simpl;
    [|left; by eexists].
  destruct (in_int64 (default _ (d_priority data))); simpl;
    [|left; by eexists].
  destruct (text_affinity pcmd) as [command|] eqn:Ccmd; simpl;
    [|left; by eexists].
  destruct (primary_key_taken (text_affinity pid) (jobs d)) eqn:Ex; simpl;
    [left; by eexists|].
  right. exists (text_affinity pid), command. done.
Qed.

(** C5: when a row with id [x] exists, [enqueue] of a descriptor whose id is
    stored as [x] leaves the database exactly as it was (every row, every
    field, no new row) and raises; for a descriptor that [enqueue] accepts on
    an empty jobs table, what it raises is the error saying that the job
    already exists. This covers every id that is stored as a text. An id that
    is stored as NULL collides with nothing: a descriptor with such an id
    that [enqueue] accepts on an empty table is accepted on every table, and
    a row is added each time. The JSON literal NaN is such an id: it is true,
    so it passes the check of [enqueue], and it is stored as NULL. *)
Theorem C5_duplicate_id_rejected :
  (∀ ts data d x,
     (∃ j, j ∈ jobs d ∧ job_id j = Some x) →
     stored_text (d_id data) = Ok (Some x) →
     (enqueue ts data d).2 = d
     ∧ (∃ e, (enqueue ts data d).1 = Raise e)
     ∧ ((enqueue ts data (with_jobs d [])).1 = Ok Enqueued →
        (enqueue ts data d).1 = Raise (ClickException JobAlreadyExists)))
  ∧ (∀ ts data d,
       stored_text (d_id data) = Ok None →
       (enqueue ts data (with_jobs d [])).1 = Ok Enqueued →
       ∃ command,
         enqueue ts data d =
           (Ok Enqueued,
            with_jobs d
              (jobs d ++ [mkJob None command "pending" 0
                                (default DEFAULT_MAX_RETRIES (d_max_retries data))
                                ts ts (default 0 (d_priority data))
                                (d_run_at data)])))
  ∧ (truthy (Some (JFloat S754_nan)) = true
     ∧ stored_text (Some (JFloat S754_nan)) = Ok None).
Proof.
  split; [|split; [|done]].
  - intros ts data d x Hex%existsb_has_id Hid.
    destruct (enqueue_cases ts data d)
      as [[e He]|(id & command & _ & _ & Hid' & _ & Hfree & _)].
    2: { rewrite Hid in Hid'. simplify_eq. simpl in Hfree. congruence. }
    rewrite He. simpl. split; [done|]. split; [by exists e|].
    revert He. unfold enqueue, insert_job. unfold stored_text in Hid.
    destruct (truthy (d_id data)); simpl; [|done].
    destruct (truthy (d_command data)); simpl; [|done].
    destruct (bind_param (d_id data)) as [pid|e1]; simpl in *; [|done].
    destruct (bind_param (d_command data)) as [pcmd|e2]; simpl; [|by destruct e2].
    unfold bind_int.
    destruct (in_int64 (default _ (d_max_retries data))); simpl; [|done].
    destruct (in_int64 (default _ (d_priority data))); simpl; [|done].
    destruct (text_affinity pcmd) as [command|]; simpl; [|by intros [= <-]].
    injection Hid as ->. simpl. rewrite Hex. simpl. by intros [= <-].
  - intros ts data d Hid.
    unfold enqueue, insert_job. unfold stored_text in Hid.
    destruct (truthy (d_id data)); simpl; [|done].
    destruct (truthy (d_command data)); simpl; [|done].
    destruct (bind_param (d_id data)) as [pid|e1]; simpl in *; [|done].
    destruct (bind_param (d_command data)) as [pcmd|e2]; simpl; [|by destruct e2].
    unfold bind_int.
    destruct (in_int64 (default _ (d_max_retries data))); simpl; [|done].
    destruct (in_int64 (default _ (d_priority data))); simpl; [|done].
    destruct (text_affinity pcmd) as [command|]; simpl; [|done].
    injection Hid as ->. simpl. intros _. by exists command.
Qed.

(** ** Every step changes the jobs table by an UPDATE, a DELETE or an INSERT *)

Lemma finish_job_change mrc bbc job success t d :
  table_change (jobs d) (jobs (finish_job mrc bbc job success t d).2).
Proof.
  unfold finish_job, update_job_state.
  destruct success; simpl.
  { apply tc_update. intros r. apply set_state_attempts_keeps. }
  destruct (py_int_lt _ _) as [[|]|e]; simpl;
    try (apply tc_update; intros r; apply set_state_attempts_keeps);
    [|constructor].
  destruct (int_printable _); simpl; [|constructor].
  apply tc_update. intros r. apply set_state_attempts_keeps.
Qed.

Lemma enqueue_change ts data d :
  table_change (jobs d) (jobs (enqueue ts data d).2).
Proof.
  destruct (enqueue_cases ts data d)
    as [[e ->]|(id & command & Tid & Tcmd & Hid & Hcmd & Hfree & ->)]; simpl.
  - constructor.
  - apply tc_insert; simpl; [| |done].
    + intros ->. by apply (stored_text_nonempty (d_id data) "").
    + by apply (stored_text_nonempty (d_command data)).
Qed.

Lemma run_command_change c d :
  table_change (jobs d) (jobs (run_command c d)).
Proof.
  destruct c as [ts data|t x| |k v|t x|t x|x]; simpl.
  - apply enqueue_change.
  - unfold dlq_retry. destruct (dlq_retry_select _ _); simpl; [|constructor].
    apply tc_update. intros r. apply set_state_attempts_keeps.
  - apply tc_delete.
  - constructor.
  - unfold pause_job. destruct (Nat.eqb _ _); simpl; [constructor|].
    apply tc_update. intros r. apply set_state_keeps.
  - unfold resume_job. destruct (Nat.eqb _ _); simpl; [constructor|].
    apply tc_update. intros r. apply set_state_keeps.
  - unfold cancel_job. destruct (Nat.eqb _ _); simpl; [constructor|].
    apply tc_delete.
Qed.

Lemma step_change e W :
  table_change (jobs (w_db W)) (jobs (w_db (step e W))).
Proof.
  destruct e as [w|w lock t_sel t_upd|w success t|c|x|t x]; simpl.
  - destruct (w_workers W !! w); constructor.
  - destruct (w_workers W !! w) as [[mr bb [job|]]|]; try constructor.
    pose proof (fetch_pending_job_change lock t_sel t_upd (w_db W)) as Hc.
    by destruct (fetch_pending_job lock t_sel t_upd (w_db W)).
  - destruct (w_workers W !! w) as [[mr bb [job|]]|]; try constructor.
    pose proof (finish_job_change mr bb job success t (w_db W)) as Hc.
    by destruct (finish_job mr bb job success t (w_db W)) as [[o|e] d'].
  - apply run_command_change.
  - destruct (dlq_retry_select x (w_db W)); constructor.
  - destruct (existsb _ _); simpl; [|constructor].
    apply tc_update. intros r. apply set_state_attempts_keeps.
Qed.

(** A property of the jobs table that every statement preserves holds in
    every reachable world. *)
Lemma run_preserves (I : list job → Prop) :
  (∀ l l', table_change l l' → I l → I l') →
  ∀ es W, I (jobs (w_db W)) → I (jobs (w_db (run es W))).
Proof.
  intros HI es. induction es as [|e es IH]; intros W HW; simpl; [done|].
  apply IH. by eapply HI; [apply step_change|].
Qed.

Lemma reachable_unique_ids (W : world) : reachable W → unique_ids (w_db W).
Proof.
  intros [es ->]. unfold unique_ids.
  apply (run_preserves (λ l, NoDup (omap job_id l))).
  - apply unique_ids_change.
  - simpl. apply NoDup_nil_2.
Qed.

(** C9: [enqueue] raises its validation error, with the database untouched,
    whenever [data.get("id")] is falsy, and likewise for the command once the
    id passed. The falsy values are: absent or null, false, 0, 0.0 and -0.0,
    the empty string, the empty list and the empty object. As a consequence
    no row of any reachable database has an empty text as id or as command.
    But the id of a row can be NULL: [enqueue] accepts the id NaN and stores
    it so. *)
Theorem C9_empty_id_or_command_rejected :
  (∀ ts data d,
     truthy (d_id data) = false →
     enqueue ts data d = (Raise (ClickException MustIncludeId), d))
  ∧ (∀ ts data d,
       truthy (d_id data) = true → truthy (d_command data) = false →
       enqueue ts data d = (Raise (ClickException MustIncludeCommand), d))
  ∧ (∀ v, truthy v = false ↔
          v = None ∨ v = Some JNull ∨ v = Some (JBool false)
          ∨ v = Some (JInt 0) ∨ (∃ s, v = Some (JFloat (S754_zero s)))
          ∨ v = Some (JStr "") ∨ v = Some (JArr []) ∨ v = Some (JObj []))
  ∧ (∀ W, reachable W →
       ∀ j, j ∈ jobs (w_db W) → job_id j ≠ Some "" ∧ job_command j ≠ "")
  ∧ (∀ ts,
       reachable (run [Cli (CmdEnqueue ts nan_job)] initial_world)
       ∧ jobs (w_db (run [Cli (CmdEnqueue ts nan_job)] initial_world))
         = [mkJob None "echo hi" "pending" 0 3 ts ts 0 None]).
Proof.
  split; [|split; [|split; [|split]]].
  - intros ts data d Hf. unfold enqueue. by rewrite Hf.
  - intros ts data d H1 H2. unfold enqueue. by rewrite H1, H2.
  - intros v. split.
    + destruct v as [[|[|]|z|[s|s| |s m e]|s|[|x l]|[|x l]]|]; simpl;
        try done; try tauto.
      * intros Hz%negb_false_iff%Z.eqb_eq. subst. tauto.
      * intros _. do 4 right. left. by exists s.
      * intros Hs%negb_false_iff%String.eqb_eq. subst. tauto.
    + intros [->|[->|[->|[->|[[s ->]|[->|[->| ->]]]]]]]; done.
  - intros W [es ->].
    apply (run_preserves
             (λ l, ∀ j, j ∈ l → job_id j ≠ Some "" ∧ job_command j ≠ "")).
    + apply nonempty_fields_change.
    + simpl. by intros j ?%elem_of_nil.
  - intros ts. split; [by eexists|]. reflexivity.
Qed.

(** ** Retry policy *)

Lemma load_backoff_base_stored (d : db) (s : string) :
  config d !! "backoff_base" = Some s →
  load_backoff_base d
  = match int_of_text s with Some n => PyInt n | None => PyStr s end.
Proof.
  intros Hs. unfold load_backoff_base, get_config, int_of_str. rewrite Hs.
  by destruct (int_of_text s).
Qed.

Lemma backoff_base_stored (d : db) (s : string) :
  config d !! "backoff_base" = Some s →
  backoff_base (load_backoff_base d)
  = match int_of_text s with Some n => n | None => 2 end.
Proof.
  intros Hs. rewrite (load_backoff_base_stored d s Hs).
  unfold backoff_base. destruct (int_of_text s) eqn:Hp; simpl; [done|].
  unfold int_of_str. by rewrite Hp.
Qed.

Lemma finish_job_retry mrc bbc job t d c :
  job_max_retries_or job mrc = PyInt c →
  row_attempts job + 1 < c →
  finish_job mrc bbc job false t d
  = if int_printable (backoff_base bbc ^ (row_attempts job + 1))
    then (Ok (Retrying (row_attempts job + 1)
                       (backoff_base bbc ^ (row_attempts job + 1))),
          update_job_state d (row_id job) "pending" (row_attempts job + 1) t)
    else (Raise ValueError, d).
Proof.
  intros Hc Hlt. unfold finish_job. rewrite Hc. simpl.
  by assert ((row_attempts job + 1 <? c) = true) as -> by by apply Z.ltb_lt.
Qed.

Lemma finish_job_exhausted mrc bbc job t d c :
  job_max_retries_or job mrc = PyInt c →
  c ≤ row_attempts job + 1 →
  finish_job mrc bbc job false t d
  = (Ok (MovedToDlq (row_attempts job + 1)),
     update_job_state d (row_id job) "dead" (row_attempts job + 1) t).
Proof.
  intros Hc Hge. unfold finish_job. rewrite Hc. simpl.
  by assert ((row_attempts job + 1 <? c) = false) as -> by by apply Z.ltb_ge.
Qed.

(** C10: whatever string is stored under backoff_base, resolving the base
    never raises. When [int] converts the string, [get_config] returns the
    integer and the base is that integer. When it does not, [int] raises
    inside [get_config], which returns the string; [int] raises again on it
    in [process_loop], and the base is the default 2. [int] is the one of the
    runtime, whatever it accepts. With that base a failed job with retries
    left is requeued unless the [print] of the delay raises. *)
Theorem C10_backoff_base_never_raises (d : db) (s : string) :
  config d !! "backoff_base" = Some s →
  (∀ n, int_of_str s = Ok n →
     load_backoff_base d = PyInt n
     ∧ backoff_base (load_backoff_base d) = n)
  ∧ (∀ e, int_of_str s = Raise e →
       load_backoff_base d = PyStr s
       ∧ py_int (load_backoff_base d) = Raise e
       ∧ backoff_base (load_backoff_base d) = 2)
  ∧ backoff_base (load_backoff_base d)
    = match int_of_text s with Some n => n | None => 2 end
  ∧ (∀ mrc job t d' c,
       job_max_retries_or job mrc = PyInt c → row_attempts job + 1 < c →
       let k := row_attempts job + 1 in
       let b := match int_of_text s with Some n => n | None => 2 end in
       finish_job mrc (load_backoff_base d) job false t d'
       = if int_printable (b ^ k)
         then (Ok (Retrying k (b ^ k)),
               update_job_state d' (row_id job) "pending" k t)
         else (Raise ValueError, d')).
Proof.
  intros Hs. split; [|split; [|split]].
  - rewrite (load_backoff_base_stored d s Hs).
    unfold int_of_str, backoff_base.
    intros n Hn. destruct (int_of_text s); by simplify_eq.
  - rewrite (load_backoff_base_stored d s Hs).
    unfold int_of_str, backoff_base.
    intros e He. destruct (int_of_text s) eqn:Hp; simplify_eq.
    simpl. unfold int_of_str. by rewrite Hp.
  - by apply backoff_base_stored.
  - intros mrc job t d' c Hc Hlt k b.
    rewrite (finish_job_retry _ _ _ _ _ c) by done.
    by rewrite (backoff_base_stored d s Hs).
Qed.

Lemma pow_as_product (b : Z) (n : nat) :
  b ^ Z.of_nat n = fold_right Z.mul 1 (repeat b n).
Proof.
  induction n as [|n IH]; [done|].
  rewrite Nat2Z.inj_succ, Z.pow_succ_r by lia. simpl. by rewrite IH.
Qed.

(** C4: when attempt number k >= 1 fails and k is below the retry ceiling,
    the delay the worker computes is b ^ k for the integer base b it resolved
    from the config it read at start: an exact integer power, the product of
    k copies of b, where b is 2 when backoff_base is not set or is not
    accepted by [int], and the value of [int] otherwise. The worker then
    prints the delay and requeues the job; if the delay is too long to be
    printed the worker raises instead, with the job left as claimed. *)
Theorem C4_backoff_delay_is_power
    (d0 : db) (job : row) (t : string) (d : db) (c : Z) :
  let k := row_attempts job + 1 in
  let b := backoff_base (load_backoff_base d0) in
  1 ≤ k →
  job_max_retries_or job (load_max_retries d0) = PyInt c →
  k < c →
  finish_job (load_max_retries d0) (load_backoff_base d0) job false t d
  = (if int_printable (b ^ k)
     then (Ok (Retrying k (b ^ k)),
           update_job_state d (row_id job) "pending" k t)
     else (Raise ValueError, d))
  ∧ b ^ k = fold_right Z.mul 1 (repeat b (Z.to_nat k))
  ∧ (config d0 !! "backoff_base" = None → b = 2)
  ∧ (∀ s, config d0 !! "backoff_base" = Some s →
       b = match int_of_text s with Some n => n | None => 2 end)
  ∧ (Z.abs (b ^ k) < 10 ^ 640 → int_printable (b ^ k) = true).
Proof.
  intros k b Hk Hc Hlt. split; [|split; [|split; [|split]]].
  - by rewrite (finish_job_retry _ _ _ _ _ c).
  - rewrite <- pow_as_product. f_equal. lia.
  - intros Hnone. unfold b, load_backoff_base, get_config. by rewrite Hnone.
  - intros s Hs. by apply backoff_base_stored.
  - apply int_printable_small.
Qed.

(** Base 2: the first three failed attempts wait 2, 4 and 8 seconds. *)
Example backoff_base_2_delays :
  ∀ t d,
    (finish_job (PyInt 5) (PyInt 2) (mkRow (Some "j") "c" 0 0 0 None)
                false t d).1
    = Ok (Retrying 1 2)
    ∧ (finish_job (PyInt 5) (PyInt 2) (mkRow (Some "j") "c" 1 0 0 None)
                  false t d).1
      = Ok (Retrying 2 4)
    ∧ (finish_job (PyInt 5) (PyInt 2) (mkRow (Some "j") "c" 2 0 0 None)
                  false t d).1
      = Ok (Retrying 3 8).
Proof.
  intros t d. unfold finish_job. simpl.
  rewrite !int_printable_small by done. done.
Qed.

(** ** A failed pass, seen from the job *)

Lemma lookup_update_job_state (d : db) (p : option string) (y s : string)
    (a : Z) (t : string) :
  lookup_job y (update_job_state d p s a t)
  = (λ r, if id_is p r then set_state_attempts s a t r else r)
      <$> lookup_job y d.
Proof. unfold lookup_job, update_job_state. simpl. by apply find_sql_update. Qed.

Lemma unique_ids_same_row (l : list job) (j1 j2 : job) (x : string) :
  NoDup (omap job_id l) → j1 ∈ l → j2 ∈ l →
  job_id j1 = Some x → job_id j2 = Some x → j1 = j2.
Proof.
  intros Hnd H1 H2 E1 E2.
  pose proof (find_has_id_unique l j1 x Hnd H1 E1) as F1.
  pose proof (find_has_id_unique l j2 x Hnd H2 E2) as F2.
  congruence.
Qed.

(** The database after [finish_job]: untouched when the pass raised, else one
    [update_job_state] of the claimed id. *)
Lemma finish_job_db mrc bbc job success t d :
  (finish_job mrc bbc job success t d).2 = d
  ∨ ∃ s a, (finish_job mrc bbc job success t d).2
           = update_job_state d (row_id job) s a t.
Proof.
  unfold finish_job. destruct success; simpl; [right; by eexists _, _|].
  destruct (py_int_lt _ _) as [[|]|e]; simpl;
    [|right; by eexists _, _|by left].
  destruct (int_printable _); simpl; [right; by eexists _, _|by left].
Qed.


(** ** Workers and the jobs they do not hold *)

Lemma elem_of_sql_update_other (p : job → bool) (f : job → job) (l : list job) (j : job) :
  j ∈ l → p j = false → j ∈ sql_update p f l.
Proof.
  intros Hj Hp. unfold sql_update. apply list_elem_of_fmap.
  exists j. by rewrite Hp.
Qed.

Lemma lookup_fetch_not_pending lock t_sel t_upd d snap d' x jx :
  fetch_pending_job lock t_sel t_upd d = (Some snap, d') →
  unique_ids d →
  lookup_job x d = Some jx → job_state jx ≠ "pending" →
  lookup_job x d' = Some jx ∧ row_id snap ≠ Some x.
Proof.
  intros (_ & j & Hj & [Hst _]%eligible_spec & _ & -> & ->)%fetch_pending_job_some
         Hnd Hx Hne.
  pose proof Hx as [Hin Hid]%find_has_id_elem.
  assert (job_id j ≠ Some x) as Hjx.
  { intros E. assert (jx = j) by by apply (unique_ids_same_row (jobs d) _ _ x).
    congruence. }
  split; [|done].
  unfold lookup_job. simpl. rewrite find_sql_update by done.
  fold (lookup_job x d). rewrite Hx. simpl.
  rewrite id_is_false; [done|congruence].
Qed.

Lemma lookup_finish_other mrc bbc job success t d x :
  row_id job ≠ Some x →
  lookup_job x (finish_job mrc bbc job success t d).2 = lookup_job x d.
Proof.
  intros Hne.
  destruct (finish_job_db mrc bbc job success t d) as [->|(s & a & ->)];
    [done|].
  rewrite lookup_update_job_state.
  destruct (lookup_job x d) as [r|] eqn:Hr; [|done]. simpl.
  apply find_has_id_elem in Hr as [_ Hid].
  rewrite id_is_false; [done|congruence].
Qed.

Lemma elem_of_finish_other mrc bbc job success t d j :
  j ∈ jobs d → job_id j ≠ row_id job →
  j ∈ jobs (finish_job mrc bbc job success t d).2.
Proof.
  intros Hj Hne.
  destruct (finish_job_db mrc bbc job success t d) as [->|(s & a & ->)];
    [done|].
  simpl. apply elem_of_sql_update_other; [done|]. by apply id_is_false.
Qed.

(** A worker event changes neither a job that is not pending and that no
    worker holds, nor the fact that no worker holds it. *)
Lemma worker_step_keeps_unheld (e : event) (W : world) (x : string) (jx : job) :
  is_worker_event e = true →
  unique_ids (w_db W) → not_held x W →
  lookup_job x (w_db W) = Some jx → job_state jx ≠ "pending" →
  lookup_job x (w_db (step e W)) = Some jx ∧ not_held x (step e W).
Proof.
  destruct W as [d ws rs]. intros He Hnd Hfree Hx Hst.
  unfold not_held in *.
  destruct e as [w|w lock t_sel t_upd|w success t|c|y|t y]; simpl in *;
    [| | |done..].
  - destruct (ws !! w) as [k|] eqn:Hw; [done|]. simpl. split; [done|].
    intros w' k job Hk Hcur. destruct (decide (w = w')) as [<-|Hne].
    + rewrite lookup_insert_eq in Hk. by simplify_eq.
    + rewrite lookup_insert_ne in Hk by done. by eapply Hfree.
  - destruct (ws !! w) as [[mr bb [job|]]|] eqn:Hw; [done| |done].
    destruct (fetch_pending_job lock t_sel t_upd d) as [[snap|] d'] eqn:Hf;
      simpl.
    + destruct (lookup_fetch_not_pending _ _ _ _ _ _ _ _ Hf Hnd Hx Hst)
        as [Hx' Hsnap].
      split; [done|].
      intros w' k job Hk Hcur. destruct (decide (w = w')) as [<-|Hne].
      * rewrite lookup_insert_eq in Hk. simplify_eq. simpl in Hcur.
        by simplify_eq.
      * rewrite lookup_insert_ne in Hk by done. by eapply Hfree.
    + apply fetch_pending_job_none in Hf as [-> _]. split; [done|].
      intros w' k job Hk Hcur. destruct (decide (w = w')) as [<-|Hne].
      * rewrite lookup_insert_eq in Hk. by simplify_eq.
      * rewrite lookup_insert_ne in Hk by done. by eapply Hfree.
  - destruct (ws !! w) as [[mr bb [job|]]|] eqn:Hw; [|done|done].
    assert (row_id job ≠ Some x) as Hne by by eapply (Hfree w).
    pose proof (lookup_finish_other mr bb job success t d x Hne) as Hl.
    destruct (finish_job mr bb job success t d) as [[o|e] d']; simpl in *.
    + split; [congruence|].
      intros w' k job' Hk Hcur. destruct (decide (w = w')) as [<-|Hne'].
      * rewrite lookup_insert_eq in Hk. by simplify_eq.
      * rewrite lookup_insert_ne in Hk by done. by eapply Hfree.
    + split; [congruence|].
      intros w' k job' Hk Hcur. destruct (decide (w = w')) as [<-|Hne'].
      * by rewrite lookup_delete_eq in Hk.
      * rewrite lookup_delete_ne in Hk by done. by eapply Hfree.
Qed.

(** No sequence of worker events (start, claim, finish, in any interleaving
    of any number of workers) changes a job that is not pending and that no
    worker holds. *)
Lemma workers_keep_unheld (es : list event) (W : world) (x : string) (jx : job) :
  forallb is_worker_event es = true →
  unique_ids (w_db W) → not_held x W →
  lookup_job x (w_db W) = Some jx → job_state jx ≠ "pending" →
  lookup_job x (w_db (run es W)) = Some jx.
Proof.
  revert W. induction es as [|e es IH]; intros W Hes Hnd Hfree Hx Hst;
    simpl in *; [done|].
  apply andb_true_iff in Hes as [He Hes].
  destruct (worker_step_keeps_unheld e W x jx He Hnd Hfree Hx Hst)
    as [Hx' Hfree'].
  apply IH; [done| |done..].
  unfold unique_ids in *. by eapply unique_ids_change; [apply step_change|].
Qed.

(** With consistent claims, a job that is not processing is held by no
    worker. *)
Lemma consistent_not_held (W : world) (x : string) (jx : job) :
  unique_ids (w_db W) → claims_consistent W →
  lookup_job x (w_db W) = Some jx → job_state jx ≠ "processing" →
  not_held x W.
Proof.
  intros Hnd [H1 _] Hx Hst w k job Hk Hcur Hid.
  destruct (H1 w k job x Hk Hcur Hid) as (j & Hj & Hjid & Hjst).
  apply find_has_id_elem in Hx as [Hin Hidx].
  assert (jx = j) by by apply (unique_ids_same_row (jobs (w_db W)) _ _ x).
  congruence.
Qed.

(** ** What moves a dead job *)

Lemma find_app_some (p : job → bool) (l l' : list job) (j : job) :
  List.find p l = Some j → List.find p (l ++ l') = Some j.
Proof.
  induction l as [|r l IH]; simpl; [done|]. by destruct (p r).
Qed.

Lemma enqueue_keeps_rows ts data d x jx :
  lookup_job x d = Some jx → lookup_job x (enqueue ts data d).2 = Some jx.
Proof.
  intros Hx. destruct (enqueue_cases ts data d)
    as [[e ->]|(id & command & _ & _ & _ & _ & _ & ->)]; simpl; [done|].
  unfold lookup_job. simpl. by apply find_app_some.
Qed.






(** ** Consistent claims *)

Lemma no_workers_consistent (d : db) (rs : list string) :
  claims_consistent (mkWorld d ∅ rs).
Proof.
  split; simpl.
  - intros w k job x Hk. by rewrite lookup_empty in Hk.
  - intros w1 w2 k1 k2 job1 job2 x _ Hk. by rewrite lookup_empty in Hk.
Qed.

(** Consistency carries over to a world in which every claim that is held
    was held before by the same worker, and its processing row survived. *)
Lemma claims_consistent_mono (d d' : db) (ws ws' : gmap nat worker)
    (rs rs' : list string) :
  claims_consistent (mkWorld d ws rs) →
  (∀ w k job x, ws' !! w = Some k → current k = Some job →
     row_id job = Some x →
     (∃ k0, ws !! w = Some k0 ∧ current k0 = Some job)
     ∧ (∀ j, j ∈ jobs d → job_id j = Some x →
          job_state j = "processing" →
          ∃ j', j' ∈ jobs d' ∧ job_id j' = Some x
                ∧ job_state j' = "processing")) →
  claims_consistent (mkWorld d' ws' rs').
Proof.
  intros [H1 H2] Hsub. split; simpl in *.
  - intros w k job x Hk Hcur Hid.
    destruct (Hsub w k job x Hk Hcur Hid) as [(k0 & Hk0 & Hcur0) Hrow].
    destruct (H1 w k0 job x Hk0 Hcur0 Hid) as (j & Hj & Hjid & Hst).
    by apply (Hrow j).
  - intros w1 w2 k1 k2 job1 job2 x Hne Hk1 Hk2 Hc1 Hc2 Hid1 Hid2.
    destruct (Hsub w1 k1 job1 x Hk1 Hc1 Hid1) as [(k01 & Hk01 & Hcur01) _].
    destruct (Hsub w2 k2 job2 x Hk2 Hc2 Hid2) as [(k02 & Hk02 & Hcur02) _].
    by apply (H2 w1 w2 k01 k02 job1 job2 x).
Qed.

Lemma worker_step_consistent (e : event) (W : world) :
  is_worker_event e = true →
  unique_ids (w_db W) → claims_consistent W →
  claims_consistent (step e W).
Proof.
  destruct W as [d ws rs]. intros He Hnd Hcons.
  destruct e as [w|w lock t_sel t_upd|w success t|c|y|t y]; simpl in *;
    [| | |done..].
  - (* Start *)
    destruct (ws !! w) as [k|] eqn:Hw; [done|].
    apply (claims_consistent_mono d d ws _ rs); [done|].
    intros w' k job x Hk Hcur Hid. destruct (decide (w = w')) as [<-|Hne].
    + rewrite lookup_insert_eq in Hk. by simplify_eq.
    + rewrite lookup_insert_ne in Hk by done. split; [by exists k|]. eauto.
  - (* Claim *)
    destruct (ws !! w) as [[mr bb [job|]]|] eqn:Hw; [done| |done].
    destruct (fetch_pending_job lock t_sel t_upd d) as [[snap|] d'] eqn:Hf.
    + pose proof Hf as
        (_ & j & Hj & [Hst _]%eligible_spec & _ & -> & ->)%fetch_pending_job_some.
      destruct Hcons as [H1 H2]. simpl in *.
      assert (∀ w' k' job' x, ws !! w' = Some k' → current k' = Some job' →
                row_id job' = Some x → job_id j ≠ Some x) as Hfresh.
      { intros w' k' job' x Hk' Hcur' Hid' Heq.
        destruct (H1 w' k' job' x Hk' Hcur' Hid') as (j' & Hj' & Hjid' & Hst').
        assert (j' = j) by by apply (unique_ids_same_row (jobs d) _ _ x).
        congruence. }
      split; simpl.
      * intros w' k job x Hk Hcur Hid. destruct (decide (w = w')) as [<-|Hne].
        -- rewrite lookup_insert_eq in Hk. simplify_eq. simpl in *. simplify_eq.
           simpl in Hid.
           exists (set_state "processing" t_upd j). split; [|done].
           unfold sql_update. apply list_elem_of_fmap. exists j.
           rewrite Hid. simpl.
           by assert (has_id x j = true) as -> by by apply has_id_true.
        -- rewrite lookup_insert_ne in Hk by done.
           destruct (H1 w' k job x Hk Hcur Hid) as (j' & Hj' & Hid' & Hst').
           exists j'. split; [|done].
           apply elem_of_sql_update_other; [done|]. apply id_is_false.
           rewrite Hid'. intros E. by eapply (Hfresh w' k job x).
      * intros w1 w2 k1 k2 job1 job2 x Hne Hk1 Hk2 Hc1 Hc2 Hid1.
        destruct (decide (w = w1)) as [<-|Hne1];
          destruct (decide (w = w2)) as [<-|Hne2]; [done| | |].
        -- rewrite lookup_insert_eq in Hk1.
           rewrite lookup_insert_ne in Hk2 by done.
           simplify_eq. simpl in *. simplify_eq. simpl in Hid1.
           intros Heq. by eapply (Hfresh w2 k2 job2 x).
        -- rewrite lookup_insert_eq in Hk2.
           rewrite lookup_insert_ne in Hk1 by done.
           simplify_eq. simpl in *. simplify_eq. simpl.
           by eapply (Hfresh w1 k1 job1 x).
        -- rewrite lookup_insert_ne in Hk1 by done.
           rewrite lookup_insert_ne in Hk2 by done.
           by apply (H2 w1 w2 k1 k2 job1 job2 x).
    + apply fetch_pending_job_none in Hf as [-> _].
      apply (claims_consistent_mono d d ws _ rs); [done|].
      intros w' k job x Hk Hcur Hid. destruct (decide (w = w')) as [<-|Hne].
      * rewrite lookup_insert_eq in Hk. by simplify_eq.
      * rewrite lookup_insert_ne in Hk by done. split; [by exists k|]. eauto.
  - (* Finish *)
    destruct (ws !! w) as [[mr bb [job|]]|] eqn:Hw; [|done|done].
    pose proof (elem_of_finish_other mr bb job success t d) as Hkeep.
    assert (∀ ws',
              (∀ w' k, ws' !! w' = Some k → current k ≠ None →
                 w ≠ w' ∧ ws !! w' = Some k) →
              claims_consistent
                (mkWorld (finish_job mr bb job success t d).2 ws' rs)) as Hgen.
    { intros ws' Hws'. apply (claims_consistent_mono d _ ws _ rs); [done|].
      intros w' k job' x Hk Hcur Hid.
      destruct (Hws' w' k Hk) as [Hne Hk']; [congruence|].
      split; [by exists k|]. intros j' Hj' Hid' Hst'.
      exists j'. split; [|done]. apply Hkeep; [done|].
      rewrite Hid'. destruct Hcons as [_ H2]. intros E.
      by apply (H2 w' w k (mkWorker mr bb (Some job)) job' job x). }
    destruct (finish_job mr bb job success t d) as [[o|e] d'] eqn:Hfin;
      simpl in *; apply Hgen; intros w' k Hk Hcur;
      destruct (decide (w = w')) as [<-|Hne].
    + rewrite lookup_insert_eq in Hk. by simplify_eq.
    + by rewrite lookup_insert_ne in Hk.
    + by rewrite lookup_delete_eq in Hk.
    + by rewrite lookup_delete_ne in Hk.
Qed.

Lemma command_step_consistent (c : command) (W : world) :
  no_pause_cancel (Cli c) = true →
  unique_ids (w_db W) → claims_consistent W →
  claims_consistent (step (Cli c) W).
Proof.
  destruct W as [d ws rs]. intros Hc Hnd Hcons. simpl in *.
  apply (claims_consistent_mono d _ ws _ rs); [done|].
  intros w k job x0 Hk Hcur Hid0. split; [by exists k|].
  intros j Hj Hid Hst. exists j. split; [|done].
  destruct c as [ts data|t x| |key v|t x|t x|x]; simpl in *; try done.
  - destruct (enqueue_cases ts data d)
      as [[e ->]|(id & command & _ & _ & _ & _ & _ & ->)]; simpl; [done|].
    apply elem_of_app. by left.
  - unfold dlq_retry, dlq_retry_select, dlq_retry_update.
    destruct (List.find _ (jobs d)) as [r0|] eqn:E; simpl; [|done].
    apply elem_of_sql_update_other; [done|].
    apply find_some in E as [Hr0 [Hr0_id Hr0_st]%andb_true_iff].
    apply list_elem_of_In in Hr0. apply has_id_true in Hr0_id.
    apply in_state_true in Hr0_st. apply has_id_false. intros Hjx.
    assert (j = r0) by by apply (unique_ids_same_row (jobs d) _ _ x).
    congruence.
  - apply elem_of_List_filter. split; [done|].
    apply negb_true_iff, in_state_false. by rewrite Hst.
  - unfold resume_job. destruct (Nat.eqb _ _); simpl; [done|].
    apply elem_of_sql_update_other; [done|].
    apply andb_false_iff. right. apply in_state_false. by rewrite Hst.
Qed.

(** Without a pause, a cancel or a DLQ retry that other events interleave
    with, claims stay consistent. *)
Lemma run_claims_consistent (es : list event) (W : world) :
  forallb no_pause_cancel es = true →
  unique_ids (w_db W) → claims_consistent W →
  unique_ids (w_db (run es W)) ∧ claims_consistent (run es W).
Proof.
  revert W. induction es as [|e es IH]; intros W Hes Hnd Hcons; simpl in *;
    [done|].
  apply andb_true_iff in Hes as [He Hes]. apply IH; [done| |].
  - unfold unique_ids in *. by eapply unique_ids_change; [apply step_change|].
  - destruct e as [w|w lock t_sel t_upd|w success t|c|y|t y]; try done;
      [by apply worker_step_consistent..|by apply command_step_consistent].
Qed.

(** ** Three failures, then the DLQ *)


(** ** Passes on a job that is claimed *)

Lemma failing_pass_retry mrc bbc t_sel t_upd t_fin d job d1 c :
  fetch_pending_job true t_sel t_upd d = (Some job, d1) →
  job_max_retries_or job mrc = PyInt c →
  row_attempts job + 1 < c →
  Z.abs (backoff_base bbc ^ (row_attempts job + 1)) < 10 ^ 640 →
  worker_pass mrc bbc true t_sel t_upd false t_fin d
  = (Some (job, Ok (Retrying (row_attempts job + 1)
                             (backoff_base bbc ^ (row_attempts job + 1)))),
     update_job_state d1 (row_id job) "pending" (row_attempts job + 1) t_fin).
Proof.
  intros Hf Hc Hlt Hsmall. unfold worker_pass. rewrite Hf.
  rewrite (finish_job_retry _ _ _ _ _ c) by done.
  by rewrite int_printable_small.
Qed.

Lemma failing_pass_dead mrc bbc t_sel t_upd t_fin d job d1 c :
  fetch_pending_job true t_sel t_upd d = (Some job, d1) →
  job_max_retries_or job mrc = PyInt c →
  c ≤ row_attempts job + 1 →
  worker_pass mrc bbc true t_sel t_upd false t_fin d
  = (Some (job, Ok (MovedToDlq (row_attempts job + 1))),
     update_job_state d1 (row_id job) "dead" (row_attempts job + 1) t_fin).
Proof.
  intros Hf Hc Hge. unfold worker_pass. rewrite Hf.
  by rewrite (finish_job_exhausted _ _ _ _ _ c).
Qed.

(** The scenario, pass by pass. *)
Lemma demo_db_rows :
  demo_db
  = mkDb [mkJob (Some "j1") "exit 1" "pending" 0 3
                "2025-01-01T00:00:01+00:00" "2025-01-01T00:00:01+00:00" 5 None;
          mkJob (Some "j2") "exit 1" "pending" 0 0
                "2025-01-01T00:00:02+00:00" "2025-01-01T00:00:02+00:00" 1 None]
         (<["max_retries" := "5"]> ∅).
Proof. reflexivity. Qed.

Lemma demo_pass_1 :
  demo_pass demo_db
  = (Some (mkRow (Some "j1") "exit 1" 0 3 5 None, Ok (Retrying 1 2)),
     mkDb [mkJob (Some "j1") "exit 1" "pending" 1 3
                 "2025-01-01T00:00:01+00:00" "2025-01-01T00:01:01+00:00" 5 None;
           mkJob (Some "j2") "exit 1" "pending" 0 0
                 "2025-01-01T00:00:02+00:00" "2025-01-01T00:00:02+00:00" 1 None]
          (<["max_retries" := "5"]> ∅)).
Proof.
  unfold demo_pass.
  by erewrite (failing_pass_retry _ _ _ _ _ _ _ _ 3); [|reflexivity..|done].
Qed.

Lemma demo_pass_2 :
  demo_pass (demo_pass demo_db).2
  = (Some (mkRow (Some "j1") "exit 1" 1 3 5 None, Ok (Retrying 2 4)),
     mkDb [mkJob (Some "j1") "exit 1" "pending" 2 3
                 "2025-01-01T00:00:01+00:00" "2025-01-01T00:01:01+00:00" 5 None;
           mkJob (Some "j2") "exit 1" "pending" 0 0
                 "2025-01-01T00:00:02+00:00" "2025-01-01T00:00:02+00:00" 1 None]
          (<["max_retries" := "5"]> ∅)).
Proof.
  rewrite demo_pass_1. unfold demo_pass.
  by erewrite (failing_pass_retry _ _ _ _ _ _ _ _ 3); [|reflexivity..|done].
Qed.

Lemma demo_pass_3 :
  demo_pass (demo_pass (demo_pass demo_db).2).2
  = (Some (mkRow (Some "j1") "exit 1" 2 3 5 None, Ok (MovedToDlq 3)),
     mkDb [mkJob (Some "j1") "exit 1" "dead" 3 3
                 "2025-01-01T00:00:01+00:00" "2025-01-01T00:01:01+00:00" 5 None;
           mkJob (Some "j2") "exit 1" "pending" 0 0
                 "2025-01-01T00:00:02+00:00" "2025-01-01T00:00:02+00:00" 1 None]
          (<["max_retries" := "5"]> ∅)).
Proof.
  rewrite demo_pass_2. unfold demo_pass.
  by erewrite (failing_pass_dead _ _ _ _ _ _ _ _ 3); [|reflexivity..|done].
Qed.

(** C1: the ceiling [process_loop] compares with is the row's max_retries
    when that is nonzero, else the max_retries of the config (an int when
    [int] converts the stored text), else 3. But [enqueue] writes 3 into the
    row of a job that has no max_retries field, so for such a job the ceiling
    is 3 whatever the config says: with max_retries set to 5 in the config,
    [j1] is moved to the DLQ by its third failure. *)
Theorem C1_enqueue_default_hides_config :
  (∀ d0 job,
     job_max_retries_or job (load_max_retries d0)
     = if row_max_retries job =? 0
       then match config d0 !! "max_retries" with
            | None => PyInt 3
            | Some s =>
                match int_of_text s with Some n => PyInt n | None => PyStr s end
            end
       else PyInt (row_max_retries job))
  ∧ (∀ ts data d j,
       d_max_retries data = None →
       j ∈ jobs (enqueue ts data d).2 → j ∉ jobs d →
       job_max_retries j = 3
       ∧ ∀ mrc, job_max_retries_or (select_row j) mrc = PyInt 3)
  ∧ (d_max_retries demo_j1 = None
     ∧ config demo_db !! "max_retries" = Some "5"
     ∧ (∀ n, int_of_text "5" = Some n → load_max_retries demo_db = PyInt n)
     ∧ status "j1" demo_db = Some ("pending", 0)
     ∧ claimed (demo_pass demo_db) = Some "j1"
     ∧ status "j1" (demo_pass demo_db).2 = Some ("pending", 1)
     ∧ claimed (demo_pass (demo_pass demo_db).2) = Some "j1"
     ∧ status "j1" (demo_pass (demo_pass demo_db).2).2 = Some ("pending", 2)
     ∧ (demo_pass (demo_pass (demo_pass demo_db).2).2).1
       = Some (mkRow (Some "j1") "exit 1" 2 3 5 None, Ok (MovedToDlq 3))
     ∧ status "j1" demo_dead_db = Some ("dead", 3)).
Proof.
  split; [|split].
  - intros d0 job. unfold job_max_retries_or, load_max_retries, get_config.
    destruct (row_max_retries job =? 0); [|done].
    destruct (config d0 !! "max_retries") as [s|]; [|done].
    unfold int_of_str. by destruct (int_of_text s).
  - intros ts data d j Hnone Hj Hnew.
    destruct (enqueue_cases ts data d)
      as [[e He]|(id & command & _ & _ & _ & _ & _ & He)];
      rewrite He in Hj; simpl in Hj; [done|].
    apply elem_of_app in Hj as [Hj|Hj]; [done|].
    apply list_elem_of_singleton in Hj. subst j. rewrite Hnone. simpl.
    split; [done|]. intros mrc. done.
  - unfold demo_dead_db. rewrite demo_pass_3, demo_pass_2, demo_pass_1.
    repeat split; try reflexivity.
    intros n Hn. unfold load_max_retries, get_config.
    rewrite demo_db_rows. cbn [config]. rewrite lookup_insert_eq.
    unfold int_of_str. by rewrite Hn.
Qed.

(** * Further properties of the code *)

(** ** Sorting *)

Section order_by_sorted.
Variable le : job → job → bool.
Hypothesis le_total : ∀ a b, le a b = true ∨ le b a = true.
Hypothesis le_trans : ∀ a b c, le a b = true → le b c = true → le a c = true.

Lemma insert_by_perm (x : job) (l : list job) : insert_by le x l ≡ₚ x :: l.
Proof.
  induction l as [|y l IH]; simpl; [done|].
  destruct (le x y); [done|]. rewrite IH. apply Permutation_swap.
Qed.

Lemma order_by_perm (l : list job) : order_by le l ≡ₚ l.
Proof.
  induction l as [|x l IH]; simpl; [done|].
  by rewrite insert_by_perm, IH.
Qed.

Lemma insert_by_sorted (x : job) (l : list job) :
  StronglySorted (λ a b, le a b = true) l →
  StronglySorted (λ a b, le a b = true) (insert_by le x l).
Proof using le_total le_trans.
  induction l as [|y l IH]; simpl; intros Hs.
  - constructor; [constructor|constructor].
  - apply StronglySorted_inv in Hs as [Hl Hy].
    destruct (le x y) eqn:E.
    + constructor; [by constructor|].
      constructor; [done|].
      rewrite List.Forall_forall in Hy. apply List.Forall_forall.
      intros z Hz. eapply le_trans; [exact E|]. by apply Hy.
    + constructor; [by apply IH|].
      rewrite List.Forall_forall in Hy. apply List.Forall_forall.
      intros z Hz. apply list_elem_of_In, elem_of_insert_by in Hz as [->|Hz].
      * destruct (le_total x y); congruence.
      * apply Hy. by apply list_elem_of_In.
Qed.

Lemma order_by_sorted (l : list job) :
  StronglySorted (λ a b, le a b = true) (order_by le l).
Proof using le_total le_trans.
  induction l as [|x l IH]; simpl; [constructor|].
  by apply insert_by_sorted.
Qed.
End order_by_sorted.

Lemma by_created_at_total (a b : job) :
  by_created_at a b = true ∨ by_created_at b a = true.
Proof. apply String.leb_total. Qed.

Lemma by_created_at_trans (a b c : job) :
  by_created_at a b = true → by_created_at b c = true →
  by_created_at a c = true.
Proof. apply string_leb_trans. Qed.

Lemma by_updated_at_desc_total (a b : job) :
  by_updated_at_desc a b = true ∨ by_updated_at_desc b a = true.
Proof. apply String.leb_total. Qed.

Lemma by_updated_at_desc_trans (a b c : job) :
  by_updated_at_desc a b = true → by_updated_at_desc b c = true →
  by_updated_at_desc a c = true.
Proof. unfold by_updated_at_desc. intros H1 H2. by eapply string_leb_trans. Qed.

(** ** Listings *)

(** X1: [list_jobs] shows each job of the requested state exactly once (every
    job when no state or an empty state is given), in ascending order of
    created_at. *)
Theorem list_jobs_sorted_selection (state : option string) (d : db) :
  list_jobs state d
    ≡ₚ List.filter (λ j, match state with
                         | Some s => String.eqb s "" || in_state s j
                         | None => true
                         end) (jobs d)
  ∧ StronglySorted
      (λ a b, String.leb (job_created_at a) (job_created_at b) = true)
      (list_jobs state d)
  ∧ list_jobs (Some "") d = list_jobs None d.
Proof.
  assert (∀ l : list job, List.filter (λ _, true) l = l) as Hall.
  { induction l as [|x l IH]; simpl; by rewrite ?IH. }
  split; [|split; [|done]].
  - unfold list_jobs. destruct state as [s|].
    + destruct (String.eqb s "") eqn:E; simpl.
      * by rewrite order_by_perm, Hall.
      * by rewrite order_by_perm.
    + by rewrite order_by_perm, Hall.
  - unfold list_jobs.
    destruct state as [s|]; [destruct (negb _)|];
      apply (order_by_sorted by_created_at by_created_at_total
               by_created_at_trans).
Qed.

(** X2: [dlq_list] shows exactly the dead jobs, each once, newest updated_at
    first; right after [dlq_purge] it shows nothing, and the purge removed
    no job in another state and changed none. *)
Theorem dlq_list_and_purge (d : db) :
  dlq_list d ≡ₚ List.filter (in_state "dead") (jobs d)
  ∧ StronglySorted
      (λ a b, String.leb (job_updated_at b) (job_updated_at a) = true)
      (dlq_list d)
  ∧ dlq_list (dlq_purge d).2 = []
  ∧ jobs (dlq_purge d).2
    = List.filter (λ j, negb (in_state "dead" j)) (jobs d)
  ∧ config (dlq_purge d).2 = config d.
Proof.
  split; [|split; [|split; [|done]]].
  - unfold dlq_list. by rewrite order_by_perm.
  - apply (order_by_sorted by_updated_at_desc by_updated_at_desc_total
             by_updated_at_desc_trans).
  - unfold dlq_list, dlq_purge, sql_delete. simpl.
    assert (List.filter (in_state "dead")
              (List.filter (λ r, negb (in_state "dead" r)) (jobs d)) = [])
      as ->; [|done].
    induction (jobs d) as [|x l IH]; simpl; [done|].
    destruct (in_state "dead" x) eqn:E; simpl; [done|]. by rewrite E.
Qed.

(** ** Status counts *)

Lemma group_count_lookup (l : list job) (s : string) :
  default 0%nat (group_count l !! s) = length (List.filter (in_state s) l).
Proof.
  induction l as [|x l IH]; simpl; [by rewrite lookup_empty|].
  destruct (in_state s x) eqn:E.
  - apply in_state_true in E. rewrite E, lookup_insert_eq. simpl.
    by rewrite IH.
  - apply in_state_false in E. by rewrite lookup_insert_ne.
Qed.

(** X3: each of the six lines of [status] shows the number of rows in that
    state: grouping by state and reading the dict with default 0 is the same
    as counting the rows state by state. In particular a state with no row is
    shown as 0. *)
Theorem status_counts_exact (d : db) :
  status_counts d
  = map (λ s, (s, length (List.filter (in_state s) (jobs d)))) status_names
  ∧ ∀ s, (∀ j, j ∈ jobs d → job_state j ≠ s) →
         default 0%nat (group_count (jobs d) !! s) = 0%nat.
Proof.
  split.
  - unfold status_counts. apply map_ext. intros s.
    by rewrite group_count_lookup.
  - intros s Hs. rewrite group_count_lookup.
    induction (jobs d) as [|x l IH]; simpl; [done|].
    assert (in_state s x = false) as ->.
    { apply in_state_false, Hs. left. }
    apply IH. intros j Hj. apply Hs. by right.
Qed.

(** ** States and attempts of reachable rows *)

Lemma rows_sql_update (P : job → Prop) (p : job → bool) (f : job → job) (l : list job) :
  (∀ j, j ∈ l → P j) → (∀ r, P r → P (f r)) →
  ∀ j, j ∈ sql_update p f l → P j.
Proof.
  intros Hl Hf j (r & -> & Hr)%list_elem_of_fmap.
  destruct (p r); [apply Hf|]; by apply Hl.
Qed.

Lemma rows_sql_delete (P : job → Prop) (p : job → bool) (l : list job) :
  (∀ j, j ∈ l → P j) → ∀ j, j ∈ sql_delete p l → P j.
Proof.
  intros Hl j [Hj _]%elem_of_List_filter. by apply Hl.
Qed.

Lemma row_ok_set_state (s t : string) (r : job) :
  s ∈ ["pending"; "processing"; "completed"; "dead"; "paused"] →
  row_ok r → row_ok (set_state s t r).
Proof. intros Hs [_ Ha]. by split. Qed.

Lemma row_ok_set_state_attempts (s : string) (a : Z) (t : string) (r : job) :
  s ∈ ["pending"; "processing"; "completed"; "dead"; "paused"] →
  0 ≤ a → row_ok (set_state_attempts s a t r).
Proof. intros Hs Ha. by split. Qed.

Lemma run_command_rows_ok (c : command) (d : db) :
  (∀ j, j ∈ jobs d → row_ok j) → ∀ j, j ∈ jobs (run_command c d) → row_ok j.
Proof.
  intros Hd. destruct c as [ts data|t x| |k v|t x|t x|x]; simpl.
  - destruct (enqueue_cases ts data d)
      as [[e ->]|(id & command & _ & _ & _ & _ & _ & ->)]; simpl; [done|].
    intros j [Hj|Hj]%elem_of_app; [by apply Hd|].
    apply list_elem_of_singleton in Hj. subst j. split; simpl; [|done].
    set_solver.
  - unfold dlq_retry. destruct (dlq_retry_select _ _); simpl; [|done].
    apply rows_sql_update; [done|]. intros r _.
    apply row_ok_set_state_attempts; [set_solver|done].
  - by apply rows_sql_delete.
  - done.
  - unfold pause_job. destruct (Nat.eqb _ _); simpl; [done|].
    apply rows_sql_update; [done|]. intros r.
    apply row_ok_set_state. set_solver.
  - unfold resume_job. destruct (Nat.eqb _ _); simpl; [done|].
    apply rows_sql_update; [done|]. intros r.
    apply row_ok_set_state. set_solver.
  - unfold cancel_job. destruct (Nat.eqb _ _); simpl; [done|].
    by apply rows_sql_delete.
Qed.

Lemma step_world_ok (e : event) (W : world) : world_ok W → world_ok (step e W).
Proof.
  destruct W as [d ws rs]. intros [Hrows Hheld].
  destruct e as [w|w lock t_sel t_upd|w success t|c|y|t y]; simpl in *.
  - destruct (ws !! w) as [k|] eqn:Hw; [done|]. split; simpl; [done|].
    intros w' k job Hk Hcur. destruct (decide (w = w')) as [<-|Hne].
    + rewrite lookup_insert_eq in Hk. by simplify_eq.
    + rewrite lookup_insert_ne in Hk by done. by eapply Hheld.
  - destruct (ws !! w) as [[mr bb [job|]]|] eqn:Hw; [done| |done].
    destruct (fetch_pending_job lock t_sel t_upd d) as [[snap|] d'] eqn:Hf.
    + apply fetch_pending_job_some in Hf as (_ & j & Hj & _ & _ & -> & ->).
      split; simpl.
      * apply rows_sql_update; [done|]. intros r.
        apply row_ok_set_state. set_solver.
      * intros w' k job Hk Hcur. destruct (decide (w = w')) as [<-|Hne].
        -- rewrite lookup_insert_eq in Hk. simplify_eq. simpl in *.
           simplify_eq. simpl. by apply Hrows.
        -- rewrite lookup_insert_ne in Hk by done. by eapply Hheld.
    + apply fetch_pending_job_none in Hf as [-> _]. split; simpl; [done|].
      intros w' k job Hk Hcur. destruct (decide (w = w')) as [<-|Hne].
      * rewrite lookup_insert_eq in Hk. by simplify_eq.
      * rewrite lookup_insert_ne in Hk by done. by eapply Hheld.
  - destruct (ws !! w) as [[mr bb [job|]]|] eqn:Hw; [|done|done].
    pose proof (Hheld w _ job Hw eq_refl) as Ha.
    assert (∀ j, j ∈ jobs (finish_job mr bb job success t d).2 → row_ok j)
      as Hrows'.
    { unfold finish_job, update_job_state. destruct success; simpl.
      - apply rows_sql_update; [done|]. intros r _.
        apply row_ok_set_state_attempts; [set_solver|done].
      - destruct (py_int_lt _ _) as [[|]|e]; simpl; [| |done].
        + destruct (int_printable _); simpl; [|done].
          apply rows_sql_update; [done|]. intros r _.
          apply row_ok_set_state_attempts; [set_solver|lia].
        + apply rows_sql_update; [done|]. intros r _.
          apply row_ok_set_state_attempts; [set_solver|lia]. }
    destruct (finish_job mr bb job success t d) as [[o|e] d'] eqn:Hfin;
      simpl in *; (split; [done|]); simpl; intros w' k job' Hk Hcur;
      destruct (decide (w = w')) as [<-|Hne].
    + rewrite lookup_insert_eq in Hk. by simplify_eq.
    + rewrite lookup_insert_ne in Hk by done. by eapply Hheld.
    + by rewrite lookup_delete_eq in Hk.
    + rewrite lookup_delete_ne in Hk by done. by eapply Hheld.
  - split; simpl; [|done]. by apply run_command_rows_ok.
  - by destruct (dlq_retry_select y d).
  - destruct (existsb _ _); [|done]. split; simpl; [|done].
    apply rows_sql_update; [done|]. intros r _.
    apply row_ok_set_state_attempts; [set_solver|done].
Qed.

Lemma run_world_ok (es : list event) (W : world) :
  world_ok W → world_ok (run es W).
Proof.
  revert W. induction es as [|e es IH]; intros W HW; simpl; [done|].
  by apply IH, step_world_ok.
Qed.

Lemma status_sum_rows (l : list job) :
  (∀ j, j ∈ l → row_ok j) →
  foldr Nat.add 0%nat
    (map (λ s, length (List.filter (in_state s) l)) status_names)
  = length l.
Proof.
  induction l as [|x l IH]; intros Hl; [done|].
  assert (row_ok x) as [Hx _] by (apply Hl; left).
  specialize (IH (λ j Hj, Hl j (list_elem_of_further _ _ _ Hj))).
  simpl in *. unfold in_state in *.
  repeat (apply elem_of_cons in Hx as [Hx|Hx]; [rewrite Hx; simpl; lia|]).
  by apply elem_of_nil in Hx.
Qed.

(** X4: in every reachable world each job is in one of the states pending,
    processing, completed, dead, paused, and its attempts are not negative;
    so [status] never shows a job as failed and its six counts add up to
    the number of jobs. *)
Theorem reachable_rows_well_formed (W : world) :
  reachable W →
  (∀ j, j ∈ jobs (w_db W) →
     job_state j ∈ ["pending"; "processing"; "completed"; "dead"; "paused"]
     ∧ 0 ≤ job_attempts j)
  ∧ (("failed", 0%nat) ∈ status_counts (w_db W))
  ∧ foldr Nat.add 0%nat (map snd (status_counts (w_db W)))
    = length (jobs (w_db W)).
Proof.
  intros [es ->].
  assert (world_ok (run es initial_world)) as [Hrows _].
  { apply run_world_ok. split; simpl.
    - by intros j ?%elem_of_nil.
    - intros w k job Hk. by rewrite lookup_empty in Hk. }
  split; [done|].
  assert (status_counts (w_db (run es initial_world))
          = map (λ s, (s, length (List.filter (in_state s)
                                    (jobs (w_db (run es initial_world))))))
                status_names) as ->.
  { unfold status_counts. apply map_ext. intros s.
    by rewrite group_count_lookup. }
  split.
  - unfold status_names. simpl. rewrite !elem_of_cons. do 3 right. left.
    f_equal. symmetry.
    induction (jobs (w_db (run es initial_world))) as [|x l IH]; [done|].
    simpl. assert (in_state "failed" x = false) as ->.
    { apply in_state_false. intros Hs.
      destruct (Hrows x (list_elem_of_here _ _)) as [Hst _]. rewrite Hs in Hst.
      repeat (apply elem_of_cons in Hst as [Hst|Hst]; [discriminate|]).
      by apply elem_of_nil in Hst. }
    apply IH. intros j Hj. apply Hrows. by right.
  - rewrite map_map. simpl. by apply status_sum_rows.
Qed.



(** ** Resume and cancel *)

(** X5: [resume_job] acts only on a paused job: the rows with that id in
    state paused become pending with a fresh updated_at, attempts and all
    other columns untouched, and every other row stays as it is. If the id is
    missing or its job is in any other state (dead and completed included) it
    reports so and the database is unchanged. *)
Theorem resume_only_paused (t x : string) (d : db) :
  ((∃ j, j ∈ jobs d ∧ job_id j = Some x ∧ job_state j = "paused") →
   (resume_job t x d).1 = JobResumed
   ∧ config (resume_job t x d).2 = config d
   ∧ length (jobs (resume_job t x d).2) = length (jobs d)
   ∧ (∀ i r, jobs d !! i = Some r →
        job_id r ≠ Some x ∨ job_state r ≠ "paused" →
        jobs (resume_job t x d).2 !! i = Some r)
   ∧ (∀ i r, jobs d !! i = Some r → job_id r = Some x →
        job_state r = "paused" →
        jobs (resume_job t x d).2 !! i =
          Some (mkJob (job_id r) (job_command r) "pending" (job_attempts r)
                      (job_max_retries r) (job_created_at r) t
                      (job_priority r) (job_run_at r))))
  ∧ (¬ (∃ j, j ∈ jobs d ∧ job_id j = Some x ∧ job_state j = "paused") →
     resume_job t x d = (NotFoundOrNotPaused, d)).
Proof.
  unfold resume_job.
  destruct (Nat.eqb (rowcount _ (jobs d)) 0) eqn:E.
  - apply Nat.eqb_eq in E. rewrite rowcount_zero in E. split; [|done].
    intros (j & Hj & Hid & Hst). exfalso. specialize (E j Hj).
    apply andb_false_iff in E as [E%has_id_false|E%in_state_false]; done.
  - apply Nat.eqb_neq in E. split.
    + intros _. simpl. repeat split.
      * unfold sql_update. by rewrite length_map.
      * intros i r Hi Hne. rewrite sql_update_lookup, Hi. simpl.
        assert (has_id x r && in_state "paused" r = false) as ->; [|done].
        apply andb_false_iff.
        destruct Hne; [left; by apply has_id_false|right; by apply in_state_false].
      * intros i r Hi Hid Hst. rewrite sql_update_lookup, Hi. simpl.
        assert (has_id x r && in_state "paused" r = true) as ->; [|done].
        apply andb_true_iff. split; [by apply has_id_true|by apply in_state_true].
    + intros Hno. exfalso. apply E. apply rowcount_zero.
      intros r Hr. apply andb_false_iff.
      destruct (has_id x r) eqn:E1; [|by left]. right.
      destruct (in_state "paused" r) eqn:E2; [|done].
      exfalso. apply Hno. exists r.
      split; [done|]. split; [by apply has_id_true|by apply in_state_true].
Qed.

(** X6: [cancel_job] on an existing id deletes the job whatever its state:
    afterwards no row has that id (so the id can be enqueued again), the rows
    with other ids are exactly those there before, in the same order, and the
    config is untouched. On a missing id it reports so and changes nothing. *)
Theorem cancel_deletes_row (x : string) (d : db) :
  ((∃ j, j ∈ jobs d ∧ job_id j = Some x) →
   (cancel_job x d).1 = JobCancelled
   ∧ config (cancel_job x d).2 = config d
   ∧ lookup_job x (cancel_job x d).2 = None
   ∧ existsb (has_id x) (jobs (cancel_job x d).2) = false
   ∧ jobs (cancel_job x d).2
     = List.filter (λ r, negb (bool_decide (job_id r = Some x))) (jobs d)
   ∧ (∀ y, y ≠ x → lookup_job y (cancel_job x d).2 = lookup_job y d))
  ∧ (¬ (∃ j, j ∈ jobs d ∧ job_id j = Some x) → cancel_job x d = (NoJobFound, d)).
Proof.
  unfold cancel_job.
  destruct (Nat.eqb (rowcount (has_id x) (jobs d)) 0) eqn:E.
  - apply Nat.eqb_eq in E. rewrite rowcount_zero in E. split; [|done].
    intros (j & Hj & Hid). exfalso.
    specialize (E j Hj). apply has_id_false in E. done.
  - apply Nat.eqb_neq in E. split.
    + intros _. simpl. split; [done|]. split; [done|].
      split; [apply find_sql_delete_same|]. split; [|split].
      * destruct (existsb _ _) eqn:Ex; [|done].
        apply existsb_has_id in Ex as (r & [_ Hr]%elem_of_List_filter & Hid).
        apply negb_true_iff, has_id_false in Hr. done.
      * unfold sql_delete. apply filter_ext. intros r. f_equal.
        destruct (has_id x r) eqn:Er.
        -- apply has_id_true in Er. by rewrite bool_decide_eq_true_2.
        -- apply has_id_false in Er. by rewrite bool_decide_eq_false_2.
      * intros y Hy. unfold lookup_job. simpl. by apply find_sql_delete_other.
    + intros Hno. exfalso. apply E. apply rowcount_zero.
      intros r Hr. apply has_id_false. intros Hid. apply Hno. by exists r.
Qed.

(** ** Claims after claims, pauses and resumes *)

Lemma fetch_pending_job_row lock t_sel t_upd d :
  (fetch_pending_job lock t_sel t_upd d).1
  = if lock
    then select_row
           <$> head (order_by claim_order (List.filter (eligible t_sel) (jobs d)))
    else None.
Proof.
  unfold fetch_pending_job. destruct lock; simpl; [|done].
  by destruct (head _).
Qed.

(** X7: once a job whose id is not NULL is claimed, the next call of
    [fetch_pending_job] never returns it again: two claims in a row yield
    different ids. A job whose id is NULL is not marked by its claim: the
    database is as before, and a claim at the same time returns the job
    again. *)
Theorem consecutive_claims_differ
    (lock1 lock2 : bool) (s1 u1 s2 u2 : string) (d d1 d2 : db)
    (snap1 snap2 : row) :
  fetch_pending_job lock1 s1 u1 d = (Some snap1, d1) →
  fetch_pending_job lock2 s2 u2 d1 = (Some snap2, d2) →
  (∀ x, row_id snap1 = Some x → row_id snap2 ≠ Some x)
  ∧ (row_id snap1 = None → d1 = d ∧ (s2 = s1 → snap2 = snap1)).
Proof.
  intros Hf1 Hf2. split.
  - revert Hf1 Hf2.
    intros (_ & j1 & _ & _ & _ & -> & ->)%fetch_pending_job_some
           (_ & j2 & Hj2 & [Hst _]%eligible_spec & _ & -> & _)%fetch_pending_job_some.
    simpl in *. intros x Hx Heq. rewrite Hx in Hj2. simpl in Hj2.
    apply list_elem_of_fmap in Hj2 as (r & Hr & _).
    subst j2. simpl in Hst, Heq.
    destruct (has_id x r) eqn:E; [done|].
    apply has_id_false in E. done.
  - intros Hnull.
    pose proof Hf1 as (Hl1 & j1 & _ & _ & _ & Hs1 & Hd1)%fetch_pending_job_some.
    assert (d1 = d) as ->.
    { rewrite Hd1. rewrite Hs1 in Hnull. simpl in Hnull. rewrite Hnull.
      by rewrite sql_update_null_id, with_jobs_same. }
    split; [done|]. intros ->.
    pose proof Hf2 as (Hl2 & _)%fetch_pending_job_some.
    pose proof (fetch_pending_job_row lock1 s1 u1 d) as R1.
    pose proof (fetch_pending_job_row lock2 s1 u2 d) as R2.
    rewrite Hf1, Hl1 in R1. rewrite Hf2, Hl2 in R2. simpl in *. congruence.
Qed.

(** X8: the claim that follows [pause_job] on an id does not return the job
    with that id, whatever else is in the table. And if no worker holds the
    job when it is paused, no sequence of worker events changes its row: it
    stays paused, so that no claim returns it, until a command moves it. *)
Theorem paused_job_not_claimed :
  (∀ t x d lock t_sel t_upd snap d',
     fetch_pending_job lock t_sel t_upd (pause_job t x d).2 = (Some snap, d') →
     row_id snap ≠ Some x)
  ∧ (∀ t x W j es,
       unique_ids (w_db W) → not_held x W →
       lookup_job x (w_db W) = Some j →
       forallb is_worker_event es = true →
       lookup_job x (w_db (run es (step (Cli (CmdPause t x)) W)))
       = Some (set_state "paused" t j)).
Proof.
  split.
  - intros t x d lock t_sel t_upd snap d'.
    intros (_ & j & Hj & [Hst _]%eligible_spec & _ & -> & _)%fetch_pending_job_some.
    simpl. intros Hid. unfold pause_job in Hj.
    destruct (Nat.eqb (rowcount (has_id x) (jobs d)) 0) eqn:E; simpl in Hj.
    + apply Nat.eqb_eq in E. rewrite rowcount_zero in E.
      specialize (E j Hj). apply has_id_false in E. done.
    + apply list_elem_of_fmap in Hj as (r & Hr & _).
      destruct (has_id x r) eqn:E1.
      * subst j. done.
      * subst j. apply has_id_false in E1. done.
  - intros t x W j es Hnd Hfree Hx Hes.
    pose proof Hx as [Hin Hid]%find_has_id_elem.
    assert (has_id x j = true) as Hself by by apply has_id_true.
    apply workers_keep_unheld; [done| | | |done].
    + unfold unique_ids in *.
      by eapply unique_ids_change; [apply step_change|].
    + destruct W as [d ws rs]. exact Hfree.
    + destruct W as [d ws rs]. simpl in *. unfold pause_job.
      destruct (Nat.eqb (rowcount (has_id x) (jobs d)) 0) eqn:E.
      * apply Nat.eqb_eq in E. rewrite rowcount_zero in E.
        specialize (E j Hin). congruence.
      * simpl. unfold lookup_job. simpl. rewrite find_sql_update by done.
        fold (lookup_job x d). rewrite Hx. simpl. by rewrite Hself.
Qed.

Lemma filter_map_commute (p : job → bool) (g : job → job) (l : list job) :
  (∀ r, r ∈ l → p (g r) = p r) →
  List.filter p (map g l) = map g (List.filter p l).
Proof.
  induction l as [|x l IH]; intros Hp; simpl; [done|].
  rewrite (Hp x) by left.
  rewrite IH by (intros r Hr; apply Hp; by right).
  by destruct (p x).
Qed.

Lemma order_by_map_commute (le : job → job → bool) (g : job → job) (l : list job) :
  (∀ a b, le (g a) (g b) = le a b) →
  order_by le (map g l) = map g (order_by le l).
Proof.
  intros Hle.
  assert (∀ x s, insert_by le (g x) (map g s) = map g (insert_by le x s)) as Hins.
  { intros x s. induction s as [|y s IH]; simpl; [done|].
    rewrite Hle. destruct (le x y); simpl; [done|]. by rewrite IH. }
  induction l as [|x l IH]; simpl; [done|]. by rewrite IH, Hins.
Qed.

(** X9: pausing a pending job and then resuming it leaves the database as it
    was except for the job's updated_at, and every later claim returns the
    same row as it would have returned without the pause and resume. *)
Theorem pause_resume_restores
    (t1 t2 x : string) (d : db) (j : job) :
  unique_ids d → lookup_job x d = Some j → job_state j = "pending" →
  (pause_job t1 x d).1 = JobPaused
  ∧ (resume_job t2 x (pause_job t1 x d).2).1 = JobResumed
  ∧ config (resume_job t2 x (pause_job t1 x d).2).2 = config d
  ∧ (∀ i r, jobs d !! i = Some r →
       jobs (resume_job t2 x (pause_job t1 x d).2).2 !! i
       = Some (if bool_decide (job_id r = Some x)
               then mkJob (job_id r) (job_command r) (job_state r)
                          (job_attempts r) (job_max_retries r)
                          (job_created_at r) t2 (job_priority r) (job_run_at r)
               else r))
  ∧ (∀ lock t_sel t_upd,
       (fetch_pending_job lock t_sel t_upd
          (resume_job t2 x (pause_job t1 x d).2).2).1
       = (fetch_pending_job lock t_sel t_upd d).1).
Proof.
  intros Hnd Hx Hst. pose proof Hx as [Hin Hid]%find_has_id_elem.
  assert (∀ r, r ∈ jobs d → has_id x r = true → r = j) as Huniq.
  { intros r Hr Hr_id%has_id_true.
    by apply (unique_ids_same_row (jobs d) _ _ x). }
  set (h := λ r : job, if has_id x r then set_state "pending" t2 r else r).
  assert (pause_job t1 x d
          = (JobPaused,
             with_jobs d (sql_update (has_id x) (set_state "paused" t1)
                                     (jobs d)))) as Hpause.
  { unfold pause_job.
    destruct (Nat.eqb (rowcount (has_id x) (jobs d)) 0) eqn:E; [|done].
    apply Nat.eqb_eq in E. rewrite rowcount_zero in E.
    specialize (E j Hin). apply has_id_false in E. done. }
  assert (resume_job t2 x (pause_job t1 x d).2
          = (JobResumed, with_jobs d (map h (jobs d)))) as Hresume.
  { rewrite Hpause. unfold resume_job. simpl.
    destruct (Nat.eqb _ 0) eqn:E.
    - apply Nat.eqb_eq in E. rewrite rowcount_zero in E.
      specialize (E (set_state "paused" t1 j)).
      assert (has_id x j = true) as Hself by by apply has_id_true.
      rewrite andb_false_iff in E. destruct E as [E|E]; [| |done..].
      + apply list_elem_of_fmap. exists j. by rewrite Hself.
      + unfold has_id in *. simpl in E. congruence.
    - unfold with_jobs. simpl. do 2 f_equal. unfold sql_update.
      rewrite map_map. apply map_ext. intros r. unfold h.
      destruct (has_id x r) eqn:E1; simpl.
      + unfold has_id in *. simpl. by rewrite E1.
      + by rewrite E1. }
  assert (∀ r, r ∈ jobs d →
            h r = if bool_decide (job_id r = Some x)
                  then mkJob (job_id r) (job_command r) (job_state r)
                             (job_attempts r) (job_max_retries r)
                             (job_created_at r) t2 (job_priority r)
                             (job_run_at r)
                  else r) as Hh.
  { intros r Hr. unfold h.
    destruct (has_id x r) eqn:E.
    - rewrite bool_decide_eq_true_2 by by apply has_id_true.
      rewrite (Huniq r Hr E). unfold set_state. by rewrite Hst.
    - by rewrite bool_decide_eq_false_2 by by apply has_id_false. }
  rewrite Hresume, Hpause. simpl. repeat split.
  - intros i r Hi. rewrite list_lookup_fmap, Hi. simpl. f_equal.
    apply Hh. by eapply list_elem_of_lookup_2.
  - intros lock t_sel t_upd. rewrite !fetch_pending_job_row.
    destruct lock; [|done]. simpl.
    rewrite filter_map_commute.
    2: { intros r Hr. rewrite (Hh r Hr).
         destruct (bool_decide (job_id r = Some x)); done. }
    rewrite order_by_map_commute.
    2: { intros a b. unfold h. by destruct (has_id x a), (has_id x b). }
    destruct (order_by claim_order _) as [|r s]; simpl; [done|].
    f_equal. unfold h. by destruct (has_id x r).
Qed.

(** ** What an event can change in a job *)

Lemma lookup_sql_update_cases (p : job → bool) (f : job → job) (d : db)
    (x : string) (j j' : job) :
  (∀ r, job_id (f r) = job_id r) →
  lookup_job x d = Some j →
  lookup_job x (with_jobs d (sql_update p f (jobs d))) = Some j' →
  j' = j ∨ j' = f j.
Proof.
  intros Hf Hx. unfold lookup_job. simpl. rewrite find_sql_update by done.
  fold (lookup_job x d). rewrite Hx. simpl. intros [= <-].
  destruct (p j); [by right|by left].
Qed.

Lemma lookup_sql_delete_cases (p : job → bool) (d : db) (x : string) (j j' : job) :
  unique_ids d → lookup_job x d = Some j →
  lookup_job x (with_jobs d (sql_delete p (jobs d))) = Some j' →
  j' = j.
Proof.
  intros Hnd [Hj Hid]%find_has_id_elem
         [[Hj' _]%elem_of_List_filter Hid']%find_has_id_elem.
  by apply (unique_ids_same_row (jobs d) _ _ x).
Qed.

Lemma some_eq (o : option job) (j j' : job) : o = Some j → o = Some j' → j' = j.
Proof. congruence. Qed.

(** X10: one event, whichever it is, changes at most the state, the attempts
    and the updated_at of a job that exists before and after it: id, command,
    max_retries, created_at, priority and run_at are fixed at enqueue. *)
Theorem event_changes_only_state_columns
    (e : event) (W : world) (x : string) (j j' : job) :
  unique_ids (w_db W) →
  lookup_job x (w_db W) = Some j →
  lookup_job x (w_db (step e W)) = Some j' →
  j' = mkJob (job_id j) (job_command j) (job_state j') (job_attempts j')
             (job_max_retries j) (job_created_at j) (job_updated_at j')
             (job_priority j) (job_run_at j).
Proof.
  intros Hnd Hx Hx'.
  assert (j' = j ∨ (∃ s t, j' = set_state s t j)
          ∨ (∃ s a t, j' = set_state_attempts s a t j)) as Hcases.
  { destruct W as [d ws rs].
    destruct e as [w|w lock t_sel t_upd|w success t|c|y|t y]; simpl in *.
    - left. destruct (ws !! w); exact (some_eq _ _ _ Hx Hx').
    - destruct (ws !! w) as [[mr bb [job|]]|] eqn:Hw;
        [left; exact (some_eq _ _ _ Hx Hx')| |left; exact (some_eq _ _ _ Hx Hx')].
      destruct (fetch_pending_job lock t_sel t_upd d) as [[snap|] d'] eqn:Hf.
      + apply fetch_pending_job_some in Hf as (_ & j0 & _ & _ & _ & -> & ->).
        simpl in Hx'.
        eapply lookup_sql_update_cases in Hx' as [E|E];
          [left; exact E|right; left; eexists _, _; exact E|done|done].
      + apply fetch_pending_job_none in Hf as [-> _]. left.
        exact (some_eq _ _ _ Hx Hx').
    - destruct (ws !! w) as [[mr bb [job|]]|] eqn:Hw;
        [|left; exact (some_eq _ _ _ Hx Hx')|left; exact (some_eq _ _ _ Hx Hx')].
      assert (lookup_job x (finish_job mr bb job success t d).2 = Some j')
        as Hx''.
      { by destruct (finish_job mr bb job success t d) as [[o|e] d']. }
      destruct (finish_job_db mr bb job success t d) as [Hd|(s & a & Hd)];
        rewrite Hd in Hx''; [left; exact (some_eq _ _ _ Hx Hx'')|].
      unfold update_job_state in Hx''.
      eapply lookup_sql_update_cases in Hx'' as [E|E];
        [left; exact E|right; right; eexists _, _, _; exact E|done|done].
    - destruct c as [ts data|t y| |k v|t y|t y|y]; simpl in *.
      + left. exact (some_eq _ _ _ (enqueue_keeps_rows ts data d x j Hx) Hx').
      + unfold dlq_retry in Hx'.
        destruct (dlq_retry_select _ _); simpl in Hx';
          [|left; exact (some_eq _ _ _ Hx Hx')].
        unfold dlq_retry_update in Hx'.
        eapply lookup_sql_update_cases in Hx' as [E|E];
          [left; exact E|right; right; eexists _, _, _; exact E|done|done].
      + left. by eapply lookup_sql_delete_cases.
      + left. exact (some_eq _ _ _ Hx Hx').
      + unfold pause_job in Hx'.
        destruct (Nat.eqb _ _); simpl in Hx'; [left; exact (some_eq _ _ _ Hx Hx')|].
        eapply lookup_sql_update_cases in Hx' as [E|E];
          [left; exact E|right; left; eexists _, _; exact E|done|done].
      + unfold resume_job in Hx'.
        destruct (Nat.eqb _ _); simpl in Hx'; [left; exact (some_eq _ _ _ Hx Hx')|].
        eapply lookup_sql_update_cases in Hx' as [E|E];
          [left; exact E|right; left; eexists _, _; exact E|done|done].
      + unfold cancel_job in Hx'.
        destruct (Nat.eqb _ _); simpl in Hx'; [left; exact (some_eq _ _ _ Hx Hx')|].
        left. by eapply lookup_sql_delete_cases.
    - left. destruct (dlq_retry_select y d); exact (some_eq _ _ _ Hx Hx').
    - destruct (existsb _ _); simpl in Hx';
        [|left; exact (some_eq _ _ _ Hx Hx')].
      unfold dlq_retry_update in Hx'.
      eapply lookup_sql_update_cases in Hx' as [E|E];
        [left; exact E|right; right; eexists _, _, _; exact E|done|done]. }
  destruct Hcases as [->|[(s & t & ->)|(s & a & t & ->)]]; [by destruct j|done..].
Qed.


(** ** Workers *)

Lemma step_keeps_worker_config (e : event) (W : world) (w : nat) (k k' : worker) :
  w_workers W !! w = Some k → w_workers (step e W) !! w = Some k' →
  max_retries_conf k' = max_retries_conf k
  ∧ backoff_base_conf k' = backoff_base_conf k.
Proof.
  destruct W as [d ws rs]. intros Hk Hk'.
  assert (∀ w0 mr bb cur cur0,
            ws !! w0 = Some (mkWorker mr bb cur0) →
            <[w0 := mkWorker mr bb cur]> ws !! w = Some k' →
            max_retries_conf k' = max_retries_conf k
            ∧ backoff_base_conf k' = backoff_base_conf k) as Hins.
  { intros w0 mr bb cur cur0 Hw0 Hl. destruct (decide (w0 = w)) as [->|Hne].
    - rewrite lookup_insert_eq in Hl. simpl in *. by simplify_eq.
    - rewrite lookup_insert_ne in Hl by done. simpl in *. by simplify_eq. }
  destruct e as [w0|w0 lock t_sel t_upd|w0 success t|c|y|t y]; simpl in *.
  - destruct (ws !! w0) as [k0|] eqn:Hw0; simpl in *; [by simplify_eq|].
    destruct (decide (w0 = w)) as [->|Hne]; [congruence|].
    rewrite lookup_insert_ne in Hk' by done. by simplify_eq.
  - destruct (ws !! w0) as [[mr bb [job|]]|] eqn:Hw0; simpl in *;
      [by simplify_eq| |by simplify_eq].
    destruct (fetch_pending_job lock t_sel t_upd d) as [job d']. simpl in *.
    by eapply Hins.
  - destruct (ws !! w0) as [[mr bb [job|]]|] eqn:Hw0; simpl in *;
      [|by simplify_eq|by simplify_eq].
    destruct (finish_job mr bb job success t d) as [[o|e] d']; simpl in *.
    + by eapply Hins.
    + destruct (decide (w0 = w)) as [->|Hne].
      * by rewrite lookup_delete_eq in Hk'.
      * rewrite lookup_delete_ne in Hk' by done. by simplify_eq.
  - by simplify_eq.
  - destruct (dlq_retry_select y d); simpl in *; by simplify_eq.
  - destruct (existsb _ _); simpl in *; by simplify_eq.
Qed.

(** X11: a worker reads max_retries and backoff_base once, when it starts:
    for as long as the process lives it works with the values the config
    held at that moment, whatever [config set] commands run in between. *)
Theorem worker_config_is_a_snapshot (es : list event) (W : world) (w : nat) :
  w_workers W !! w = None →
  (∀ n, is_Some (w_workers (run (take n es) (step (Start w) W)) !! w)) →
  ∃ k, w_workers (run es (step (Start w) W)) !! w = Some k
     ∧ max_retries_conf k = load_max_retries (w_db W)
     ∧ backoff_base_conf k = load_backoff_base (w_db W).
Proof.
  intros Hnone Halive.
  assert (∀ es W k,
            w_workers W !! w = Some k →
            (∀ n, is_Some (w_workers (run (take n es) W) !! w)) →
            ∃ k', w_workers (run es W) !! w = Some k'
                ∧ max_retries_conf k' = max_retries_conf k
                ∧ backoff_base_conf k' = backoff_base_conf k) as Hgen.
  { clear. induction es as [|e es IH]; intros W k Hk Halive; simpl.
    - by exists k.
    - destruct (Halive 1%nat) as [k1 Hk1]. simpl in Hk1.
      destruct (step_keeps_worker_config e W w k k1 Hk Hk1) as [E1 E2].
      destruct (IH (step e W) k1 Hk1) as (k' & Hk' & E1' & E2').
      { intros n. apply (Halive (S n)). }
      exists k'. split; [done|]. split; congruence. }
  apply (Hgen es (step (Start w) W)
           (mkWorker (load_max_retries (w_db W)) (load_backoff_base (w_db W))
                     None)); [|done].
  simpl. rewrite Hnone. simpl. apply lookup_insert_eq.
Qed.

(** X12: as long as no job is paused or cancelled and every DLQ retry runs
    its two statements with no other event in between, no job with an id is
    ever run by two workers at once: in every world reached from the empty
    database by enqueues, config changes, DLQ retries and purges, resumes and
    any interleaving of worker starts, claims and finishes, every worker that
    holds a job whose id is not NULL holds one that is in state processing,
    and no other worker holds that job. *)
Theorem one_worker_per_job (es : list event) :
  forallb no_pause_cancel es = true →
  ∀ w1 w2 k1 k2 job1 job2 x,
    w_workers (run es initial_world) !! w1 = Some k1 →
    w_workers (run es initial_world) !! w2 = Some k2 →
    current k1 = Some job1 → current k2 = Some job2 →
    row_id job1 = Some x →
    (∃ j, lookup_job x (w_db (run es initial_world)) = Some j
          ∧ job_state j = "processing")
    ∧ (w1 ≠ w2 → row_id job2 ≠ Some x).
Proof.
  intros Hes.
  destruct (run_claims_consistent es initial_world Hes) as [Hnd [H1 H2]].
  { apply NoDup_nil_2. }
  { apply no_workers_consistent. }
  intros w1 w2 k1 k2 job1 job2 x Hk1 Hk2 Hc1 Hc2 Hid. split.
  - destruct (H1 w1 k1 job1 x Hk1 Hc1 Hid) as (j & Hj & Hjid & Hst).
    exists j. split; [|done]. by apply find_has_id_unique.
  - intros Hne. by apply (H2 w1 w2 k1 k2 job1 job2 x).
Qed.


(** X14: workers touch only pending jobs and the jobs they hold. From a
    world with consistent claims, no sequence of worker events changes a job
    that is in a state other than pending and processing: a completed job
    is never run again and a paused job waits for its resume. *)
Theorem workers_leave_settled_jobs
    (es : list event) (W : world) (x : string) (jx : job) :
  forallb is_worker_event es = true →
  unique_ids (w_db W) → claims_consistent W →
  lookup_job x (w_db W) = Some jx →
  job_state jx ≠ "pending" → job_state jx ≠ "processing" →
  lookup_job x (w_db (run es W)) = Some jx.
Proof.
  intros Hes Hnd Hcons Hx Hnp Hnr.
  apply workers_keep_unheld; [done..| |done|done].
  by apply (consistent_not_held W x jx).
Qed.

(** X15: when [int] does not accept the max_retries of the config, a worker
    started on it holds the text, and raises TypeError at the first failure
    of a job whose own max_retries is 0: nothing is written, so the job stays
    in state processing, and the worker is gone. A job with its own nonzero
    max_retries is handled as with any other config value, and so is a job
    that succeeds. *)
Theorem non_integer_max_retries_stops_worker
    (d0 : db) (s : string) (bbc : pyval) (job : row) (t : string) (d : db) :
  config d0 !! "max_retries" = Some s →
  int_of_text s = None →
  load_max_retries d0 = PyStr s
  ∧ (row_max_retries job = 0 →
     finish_job (load_max_retries d0) bbc job false t d = (Raise TypeError, d)
     ∧ ∀ ws rs w,
         ws !! w = Some (mkWorker (load_max_retries d0) bbc (Some job)) →
         step (Finish w false t) (mkWorld d ws rs)
         = mkWorld d (delete w ws) rs)
  ∧ (row_max_retries job ≠ 0 →
     ∀ mrc, finish_job (load_max_retries d0) bbc job false t d
            = finish_job mrc bbc job false t d)
  ∧ finish_job (load_max_retries d0) bbc job true t d
    = (Ok Completed,
       update_job_state d (row_id job) "completed" (row_attempts job) t).
Proof.
  intros Hs Hp.
  assert (load_max_retries d0 = PyStr s) as Hload.
  { unfold load_max_retries, get_config, int_of_str. by rewrite Hs, Hp. }
  split; [done|]. rewrite Hload. split; [|split; [|done]].
  - intros Hz.
    assert (finish_job (PyStr s) bbc job false t d = (Raise TypeError, d))
      as Hfin.
    { unfold finish_job, job_max_retries_or. by rewrite Hz. }
    split; [done|]. intros ws rs w Hw. unfold step. cbn [w_workers w_db].
    by rewrite Hw, Hfin.
  - intros Hnz mrc. unfold finish_job, job_max_retries_or.
    apply Z.eqb_neq in Hnz. by rewrite Hnz.
Qed.

(** ** Execution and logs *)

(** X16: what [execute_job_with_logging] reports. It reports success exactly
    when it reports return code 0, which happens only if the process exited
    with code 0 and its log entry was written; a command that could not be
    launched is reported as (False, -1), and an exited process whose log was
    written is reported with its own return code. *)
Theorem execution_result
    (opened1 : bool) (write_error : string) (opened2 : bool)
    (log_dir t1 t2 : string) (job : row) (run : run_outcome)
    (fs : gmap string string) :
  (∀ success rc,
     (execute_job_with_logging opened1 write_error opened2 log_dir t1 t2
                               job run fs).1 = Some (success, rc) →
     (success = true ↔ rc = 0)
     ∧ (success = true →
        opened1 = true ∧ ∃ out err, run = Exited 0 out err))
  ∧ (∀ msg, run = RunRaised msg → opened1 = true →
       (execute_job_with_logging opened1 write_error opened2 log_dir t1 t2
                                 job run fs).1 = Some (false, -1))
  ∧ (∀ rc out err, run = Exited rc out err → opened1 = true →
       (execute_job_with_logging opened1 write_error opened2 log_dir t1 t2
                                 job run fs).1 = Some (rc =? 0, rc)).
Proof.
  unfold execute_job_with_logging, write_job_log.
  split; [|split].
  - intros success rc.
    destruct run as [rc0 out err|msg], opened1, opened2; simpl;
      intros [= <- <-].
    all: split; [split; intros H|intros H].
    all: try done.
    all: try (by apply Z.eqb_eq).
    all: apply Z.eqb_eq in H; subst; split; [done|by eexists _, _].
  - by intros msg -> ->.
  - by intros rc out err -> ->.
Qed.

Lemma string_length_app (a b : string) :
  String.length (a +:+ b) = (String.length a + String.length b)%nat.
Proof. induction a as [|c a IH]; simpl; [done|]. by rewrite IH. Qed.

Lemma string_app_inj_r (s a b : string) : a +:+ s = b +:+ s → a = b.
Proof.
  revert b. induction a as [|c a IH]; intros [|c' b] H.
  - done.
  - apply (f_equal String.length) in H.
    change (String.length s = S (String.length (b +:+ s))) in H.
    rewrite string_length_app in H. lia.
  - apply (f_equal String.length) in H.
    change (S (String.length (a +:+ s)) = String.length s) in H.
    rewrite string_length_app in H. lia.
  - simpl in H. injection H as -> H. f_equal. by apply IH.
Qed.

Lemma string_app_assoc (a b c : string) : (a +:+ b) +:+ c = a +:+ b +:+ c.
Proof.
  induction a as [|x a IH]; [done|].
  change (String x ((a +:+ b) +:+ c) = String x (a +:+ b +:+ c)).
  by rewrite IH.
Qed.

Lemma log_path_inj (log_dir : string) (a b : option string) :
  log_path log_dir a = log_path log_dir b → id_text a = id_text b.
Proof.
  unfold log_path, path_join. simpl.
  generalize (id_text a) (id_text b). clear a b. intros a b.
  assert (∀ p, p +:+ "job_" +:+ a +:+ ".log" = p +:+ "job_" +:+ b +:+ ".log"
               → a = b) as Hcancel.
  { intros p H. apply String.app_inj in H. apply String.app_inj in H.
    by apply string_app_inj_r in H. }
  destruct (String.eqb log_dir ""); [apply (Hcancel "")|].
  destruct (String.eqb _ "/"); [apply Hcancel|].
  intros H. apply (Hcancel (log_dir +:+ "/")).
  by rewrite !string_app_assoc.
Qed.

(** X17: job logs are append-only and per job. An execution writes to the
    log file of its own job only (jobs with different ids have different log
    files, a NULL id counting as the text None, which is how it is printed
    into the file name), never removes or rewrites what a file held, and when
    it returns a result it has appended exactly one entry; when it raises,
    nothing was written. *)
Theorem job_log_append_only
    (opened1 : bool) (write_error : string) (opened2 : bool)
    (log_dir t1 t2 : string) (job : row) (run : run_outcome)
    (fs : gmap string string) :
  (∀ other, id_text (row_id other) ≠ id_text (row_id job) →
     log_path log_dir (row_id other) ≠ log_path log_dir (row_id job)
     ∧ (execute_job_with_logging opened1 write_error opened2 log_dir t1 t2
                                 job run fs).2
         !! log_path log_dir (row_id other)
       = fs !! log_path log_dir (row_id other))
  ∧ (∀ p old, fs !! p = Some old →
       ∃ added,
         (execute_job_with_logging opened1 write_error opened2 log_dir t1 t2
                                   job run fs).2 !! p = Some (old +:+ added))
  ∧ (is_Some (execute_job_with_logging opened1 write_error opened2 log_dir
                                       t1 t2 job run fs).1 →
     ∃ t out err,
       (execute_job_with_logging opened1 write_error opened2 log_dir t1 t2
                                 job run fs).2
         !! log_path log_dir (row_id job)
       = Some (default "" (fs !! log_path log_dir (row_id job))
               +:+ log_entry t out err))
  ∧ ((execute_job_with_logging opened1 write_error opened2 log_dir t1 t2
                               job run fs).1 = None →
     (execute_job_with_logging opened1 write_error opened2 log_dir t1 t2
                               job run fs).2 = fs)
  ∧ log_path log_dir None = log_path log_dir (Some "None").
Proof.
  assert (∀ s : string, s +:+ "" = s) as Hnil.
  { induction s as [|c s IH]; [done|].
    change (String c (s +:+ "") = String c s). by rewrite IH. }
  assert (execute_job_with_logging opened1 write_error opened2 log_dir t1 t2
                                   job run fs
          = (None, fs)
          ∨ ∃ res t out err,
              execute_job_with_logging opened1 write_error opened2 log_dir
                                       t1 t2 job run fs
              = (Some res,
                 <[log_path log_dir (row_id job) :=
                     default "" (fs !! log_path log_dir (row_id job))
                     +:+ log_entry t out err]> fs)) as [->|Hdone].
  { unfold execute_job_with_logging, write_job_log.
    destruct run as [rc out err|msg], opened1, opened2; simpl;
      (by left) || (right; by eexists _, _, _, _). }
  - simpl. split; [|split; [|split; [|done]]].
    + intros other Hne. split; [|done].
      intros Hp%log_path_inj. done.
    + intros p old Hp. exists "". by rewrite Hnil.
    + by intros [? ?].
  - destruct Hdone as (res & t & out & err & ->). simpl.
    split; [|split; [|split; [|done]]].
    + intros other Hne.
      assert (log_path log_dir (row_id other) ≠ log_path log_dir (row_id job))
        as Hpath by (intros Hp%log_path_inj; done).
      split; [done|]. by rewrite lookup_insert_ne.
    + intros p old Hp.
      destruct (decide (log_path log_dir (row_id job) = p)) as [<-|Hne].
      * rewrite lookup_insert_eq, Hp. simpl. by eexists.
      * rewrite lookup_insert_ne by done. exists "". by rewrite Hnil.
    + intros _. exists t, out, err. by rewrite lookup_insert_eq.
Qed.

(** ** Enqueue, then list *)

Lemma find_app_none (p : job → bool) (l l' : list job) :
  List.find p l = None → List.find p (l ++ l') = List.find p l'.
Proof.
  induction l as [|r l IH]; simpl; [done|]. by destruct (p r).
Qed.

(** X18: when [enqueue] accepts a descriptor, one row is appended: pending,
    attempts 0, created_at and updated_at equal to the time of the call,
    priority 0 and max_retries 3 unless given, its command a text and its id
    a text or NULL. [list] and [list --state pending] then show it, no two
    listed jobs share an id that is not NULL, and the jobs that were there
    before and the config are unchanged. *)
Theorem enqueue_then_list (ts : string) (data : descriptor) (d d' : db) :
  unique_ids d →
  enqueue ts data d = (Ok Enqueued, d') →
  ∃ id command,
    let j := mkJob id command "pending" 0
                   (default 3 (d_max_retries data)) ts ts
                   (default 0 (d_priority data)) (d_run_at data) in
    stored_text (d_id data) = Ok id
    ∧ stored_text (d_command data) = Ok (Some command)
    ∧ jobs d' = (jobs d ++ [j])%list
    ∧ j ∈ list_jobs None d' ∧ j ∈ list_jobs (Some "pending") d'
    ∧ NoDup (omap job_id (list_jobs None d'))
    ∧ length (list_jobs None d') = S (length (jobs d))
    ∧ (∀ x, id = Some x → lookup_job x d = None ∧ lookup_job x d' = Some j)
    ∧ (∀ y, id ≠ Some y → lookup_job y d' = lookup_job y d)
    ∧ config d' = config d.
Proof.
  intros Hnd Henq.
  destruct (enqueue_cases ts data d)
    as [[e He]|(id & command & Tid & Tcmd & Hid & Hcmd & Hfree & He)];
    rewrite He in Henq; [done|]. simplify_eq.
  exists id, command. intros j.
  change (with_jobs d _) with (with_jobs d (jobs d ++ [j])%list).
  assert (j ∈ (jobs d ++ [j])%list) as Hin.
  { apply elem_of_app. right. left. }
  split; [done|]. split; [done|]. split; [done|].
  split; [|split; [|split; [|split; [|split; [|split; [|done]]]]]].
  - unfold list_jobs. simpl. by apply elem_of_order_by.
  - unfold list_jobs. simpl.
    apply elem_of_order_by, elem_of_List_filter. by split.
  - unfold list_jobs.
    assert (omap job_id
              (order_by by_created_at (jobs (with_jobs d (jobs d ++ [j])%list)))
            ≡ₚ omap job_id (jobs d ++ [j])%list) as ->
      by (apply omap_Permutation, order_by_perm).
    apply (unique_ids_change (jobs d)); [|exact Hnd].
    apply tc_insert; simpl; [| |done].
    + intros ->. by apply (stored_text_nonempty (d_id data) "").
    + by apply (stored_text_nonempty (d_command data)).
  - unfold list_jobs. rewrite (Permutation_length (order_by_perm _ _)).
    simpl. rewrite length_app. simpl. lia.
  - intros x ->. simpl in Hfree.
    assert (List.find (has_id x) (jobs d) = None) as Hnone.
    { apply find_none_iff. intros r Hr.
      destruct (has_id x r) eqn:E; [|done].
      assert (existsb (has_id x) (jobs d) = true) as Hex; [|congruence].
      apply existsb_has_id. exists r. split; [done|]. by apply has_id_true. }
    split; [done|].
    unfold lookup_job. simpl. rewrite find_app_none by done. simpl.
    by assert (has_id x j = true) as -> by by apply has_id_true.
  - intros y Hy. unfold lookup_job. simpl.
    destruct (List.find (has_id y) (jobs d)) as [r|] eqn:E.
    + by apply find_app_some.
    + rewrite find_app_none by done. simpl.
      by assert (has_id y j = false) as ->
        by (apply has_id_false; simpl; congruence).
Qed.

(** ** The config table *)

Lemma step_config (e : event) (W : world) :
  config (w_db (step e W))
  = match e with
    | Cli (CmdConfigSet k v) => <[k := v]> (config (w_db W))
    | _ => config (w_db W)
    end.
Proof.
  destruct W as [d ws rs].
  destruct e as [w|w lock t_sel t_upd|w success t|c|y|t y]; simpl.
  - by destruct (ws !! w).
  - destruct (ws !! w) as [[mr bb [job|]]|]; try done.
    unfold fetch_pending_job. destruct lock; simpl; [|done].
    by destruct (head _).
  - destruct (ws !! w) as [[mr bb [job|]]|]; try done.
    destruct (finish_job_db mr bb job success t d) as [Hd|(s & a & Hd)];
      destruct (finish_job mr bb job success t d) as [[o|e] d'];
      simpl in *; by subst.
  - destruct c as [ts data|t x| |k v|t x|t x|x]; simpl; try done.
    + by destruct (enqueue_cases ts data d)
        as [[e ->]|(id & command & _ & _ & _ & _ & _ & ->)].
    + unfold dlq_retry. by destruct (dlq_retry_select _ _).
    + unfold pause_job. by destruct (Nat.eqb _ _).
    + unfold resume_job. by destruct (Nat.eqb _ _).
    + unfold cancel_job. by destruct (Nat.eqb _ _).
  - by destruct (dlq_retry_select y d).
  - by destruct (existsb _ _).
Qed.

Lemma run_keeps_config_key (es : list event) (W : world) (k : string) :
  (∀ v, Cli (CmdConfigSet k v) ∉ es) →
  config (w_db (run es W)) !! k = config (w_db W) !! k.
Proof.
  revert W. induction es as [|e es IH]; intros W Hes; simpl; [done|].
  rewrite IH by (intros v Hv; apply (Hes v); by right).
  rewrite step_config.
  destruct e as [| | |[| | |k' v'| | |]| |]; try done.
  apply lookup_insert_ne. intros ->. apply (Hes v'). left.
Qed.

(** X19: only [config set] writes the config table, and the last write to a
    key wins: after [config set k v], whatever happens next short of another
    [config set] of [k], the table holds [v] under [k] and [get_config]
    returns it, as an int when [int] converts the text and as the text
    otherwise.
    A key that was never set yields the caller's default. *)
Theorem config_set_persists (es : list event) (k : string) :
  (∀ v, Cli (CmdConfigSet k v) ∉ es) →
  (∀ W v default,
     config (w_db (run es (step (Cli (CmdConfigSet k v)) W))) !! k = Some v
     ∧ get_config (w_db (run es (step (Cli (CmdConfigSet k v)) W))) k default
       = match int_of_text v with Some n => PyInt n | None => PyStr v end)
  ∧ (∀ default, get_config (w_db (run es initial_world)) k default = default).
Proof.
  intros Hes. split.
  - intros W v default.
    assert (config (w_db (run es (step (Cli (CmdConfigSet k v)) W))) !! k
            = Some v) as Hk.
    { rewrite run_keeps_config_key by done. simpl. apply lookup_insert_eq. }
    split; [done|]. unfold get_config, int_of_str. rewrite Hk.
    by destruct (int_of_text v).
  - intros default. unfold get_config.
    rewrite run_keeps_config_key by done. simpl. by rewrite lookup_empty.
Qed.


(** ** A DLQ retry is picked up *)

(** X20: after a DLQ retry of a dead job whose run_at is not in the future, a
    worker that gets the lock claims a job (the queue is not empty for it);
    if the job it claims is the retried one, the row it gets has attempts 0,
    and it is the retried one whenever no other job is eligible. *)
Theorem dlq_retry_then_claim
    (t x : string) (d : db) (j : job) (t_sel t_upd : string) :
  unique_ids d → lookup_job x d = Some j → job_state j = "dead" →
  run_at_due t_sel j = true →
  ∃ snap d',
    fetch_pending_job true t_sel t_upd (dlq_retry t x d).2 = (Some snap, d')
    ∧ (row_id snap = Some x →
       snap = mkRow (Some x) (job_command j) 0 (job_max_retries j)
                    (job_priority j) (job_run_at j))
    ∧ ((∀ r, r ∈ jobs d → job_id r ≠ Some x → eligible t_sel r = false) →
       row_id snap = Some x).
Proof.
  intros Hnd Hx Hdead Hdue. pose proof Hx as [Hin Hid]%find_has_id_elem.
  assert (has_id x j = true) as Hself by by apply has_id_true.
  assert ((dlq_retry t x d).2
          = with_jobs d (sql_update (has_id x)
                           (set_state_attempts "pending" 0 t) (jobs d)))
    as ->.
  { unfold dlq_retry, dlq_retry_select, dlq_retry_update.
    destruct (List.find _ (jobs d)) eqn:E; [done|].
    rewrite find_none_iff in E. specialize (E j Hin).
    rewrite Hself in E. simpl in E. apply in_state_false in E. done. }
  destruct (fetch_pending_job true t_sel t_upd _) as [[snap|] d'] eqn:Hf.
  - exists snap, d'. split; [done|].
    apply fetch_pending_job_some in Hf as (_ & j0 & Hj0 & He0 & _ & -> & _).
    simpl in Hj0. apply list_elem_of_fmap in Hj0 as (r & Hr0 & Hr).
    destruct (has_id x r) eqn:Er.
    + assert (r = j).
      { apply has_id_true in Er.
        by apply (unique_ids_same_row (jobs d) _ _ x). }
      subst r j0. unfold select_row. simpl. rewrite Hid. by split.
    + subst j0. apply has_id_false in Er. split; [done|].
      intros Hothers. rewrite (Hothers r Hr Er) in He0. done.
  - apply fetch_pending_job_none in Hf as [_ Hnone]. exfalso.
    specialize (Hnone eq_refl (set_state_attempts "pending" 0 t j)).
    assert (eligible t_sel (set_state_attempts "pending" 0 t j) = true) as He.
    { unfold eligible. by rewrite andb_true_iff. }
    rewrite Hnone in He; [done|].
    simpl. apply list_elem_of_fmap. exists j. by rewrite Hself.
Qed.


(** ** The whole pass *)

(** X21: a pass with the execution spelled out is the pass [worker_pass]
    with [success] read off the process: when the log entry can be written,
    the job is treated as succeeded exactly if the process exited with code
    0, and a command that could not be launched counts as a failed attempt.
    When neither log write succeeds the function raises after the claim: the
    job is left in state processing and nothing else changed. *)
Theorem process_job_is_worker_pass
    mrc bbc (lock : bool) (t_sel t_upd : string) (write_error : string)
    (opened2 : bool) (log_dir t1 t2 : string) (run : run_outcome)
    (t_fin : string) (d : db) (fs : gmap string string) :
  (let success := match run with
                  | Exited rc _ _ => rc =? 0
                  | RunRaised _ => false
                  end in
   (process_job mrc bbc lock t_sel t_upd true write_error opened2
                log_dir t1 t2 run t_fin d fs).1.2
   = (worker_pass mrc bbc lock t_sel t_upd success t_fin d).2
   ∧ (process_job mrc bbc lock t_sel t_upd true write_error opened2
                  log_dir t1 t2 run t_fin d fs).1.1
     = (λ c, (c.1, Some c.2))
         <$> (worker_pass mrc bbc lock t_sel t_upd success t_fin d).1)
  ∧ (∀ job d',
       fetch_pending_job lock t_sel t_upd d = (Some job, d') →
       process_job mrc bbc lock t_sel t_upd false write_error false
                   log_dir t1 t2 run t_fin d fs
       = (Some (job, None), d', fs)).
Proof.
  split.
  - unfold process_job, worker_pass.
    destruct (fetch_pending_job lock t_sel t_upd d) as [[job|] d1]; [|done].
    unfold execute_job_with_logging, write_job_log.
    destruct run as [rc out err|msg]; cbn -[finish_job].
    + destruct (finish_job mrc bbc job (rc =? 0) t_fin d1). split; reflexivity.
    + destruct (finish_job mrc bbc job false t_fin d1). split; reflexivity.
  - intros job d' Hf. unfold process_job. rewrite Hf.
    unfold execute_job_with_logging, write_job_log. by destruct run.
Qed.

End properties.

(** * The properties at work

    From here on the definitions are run, with [ascii_runtime] as the
    runtime. *)

#[local] Existing Instance ascii_runtime.

Lemma two_ids_unique (l : list job) (x y : string) :
  omap job_id l = [x; y] → x ≠ y → NoDup (omap job_id l).
Proof.
  intros -> Hne. apply NoDup_cons. split; [|apply NoDup_singleton].
  by intros ->%list_elem_of_singleton.
Qed.

Lemma demo_db_unique_ids : unique_ids demo_db.
Proof. by apply (two_ids_unique _ "j1" "j2"). Qed.

Lemma demo_dead_db_unique_ids : unique_ids demo_dead_db.
Proof. by apply (two_ids_unique _ "j1" "j2"). Qed.




Lemma C4_backoff_delay_is_power_witness :
  finish_job (load_max_retries (config_set "backoff_base" "3" empty_db).2)
             (load_backoff_base (config_set "backoff_base" "3" empty_db).2)
             (mkRow (Some "j1") "exit 1" 2 5 0 None) false
             "2025-01-01T00:00:09+00:00" empty_db
  = (Ok (Retrying 3 27), empty_db)
  ∧ backoff_base
      (load_backoff_base (config_set "backoff_base" "3" empty_db).2) = 3.
Proof.
  destruct (C4_backoff_delay_is_power
              (config_set "backoff_base" "3" empty_db).2
              (mkRow (Some "j1") "exit 1" 2 5 0 None)
              "2025-01-01T00:00:09+00:00" empty_db 5)
    as (Hfin & _ & _ & Hbase & _);
    [vm_compute; discriminate|reflexivity|reflexivity|].
  split.
  - rewrite Hfin. vm_compute. reflexivity.
  - rewrite (Hbase "3" eq_refl). reflexivity.
Defined.

Lemma C5_duplicate_id_rejected_witness :
  ((enqueue "2025-01-01T00:00:09+00:00" demo_j1 demo_db).2 = demo_db
   ∧ (enqueue "2025-01-01T00:00:09+00:00" demo_j1 demo_db).1
     = Raise (ClickException JobAlreadyExists))
  ∧ (∃ command,
       enqueue "2025-01-01T00:00:09+00:00" nan_job nan_db
       = (Ok Enqueued,
          with_jobs nan_db
            (jobs nan_db
             ++ [mkJob None command "pending" 0 3
                       "2025-01-01T00:00:09+00:00" "2025-01-01T00:00:09+00:00"
                       0 None]))).
Proof.
  destruct C5_duplicate_id_rejected as (Hdup & Hnull & _).
  split.
  - destruct (Hdup "2025-01-01T00:00:09+00:00" demo_j1 demo_db "j1")
      as (Hdb & _ & Herr); [|reflexivity|].
    + exists (mkJob (Some "j1") "exit 1" "pending" 0 3
                    "2025-01-01T00:00:01+00:00"
                    "2025-01-01T00:00:01+00:00" 5 None).
      split; [|reflexivity]. vm_compute. left.
    + split; [exact Hdb|]. apply Herr. reflexivity.
  - apply (Hnull "2025-01-01T00:00:09+00:00" nan_job nan_db); reflexivity.
Defined.

Lemma C6_dlq_retry_iff_dead_witness :
  (dlq_retry "2025-01-01T00:04:00+00:00" "j1" demo_dead_db).1
  = MovedBackToPending
  ∧ dlq_retry "2025-01-01T00:04:00+00:00" "j2" demo_dead_db
    = (NotFoundInDlq, demo_dead_db).
Proof.
  split.
  - apply (C6_dlq_retry_iff_dead "2025-01-01T00:04:00+00:00" "j1" demo_dead_db).
    exists (mkJob (Some "j1") "exit 1" "dead" 3 3 "2025-01-01T00:00:01+00:00"
                  "2025-01-01T00:01:01+00:00" 5 None).
    split; [vm_compute; left|done].
  - apply (C6_dlq_retry_iff_dead "2025-01-01T00:04:00+00:00" "j2" demo_dead_db).
    intros (j & Hj & Hid & Hst). vm_compute in Hj.
    apply elem_of_cons in Hj as [->|Hj]; [discriminate|].
    apply list_elem_of_singleton in Hj. subst j. discriminate.
Defined.

Lemma C7_pause_any_state_witness :
  (pause_job "2025-01-01T00:04:00+00:00" "j1" demo_dead_db).1 = JobPaused
  ∧ pause_job "2025-01-01T00:04:00+00:00" "j9" demo_dead_db
    = (NoJobFound, demo_dead_db).
Proof.
  split.
  - apply (C7_pause_any_state "2025-01-01T00:04:00+00:00" "j1" demo_dead_db).
    exists (mkJob (Some "j1") "exit 1" "dead" 3 3 "2025-01-01T00:00:01+00:00"
                  "2025-01-01T00:01:01+00:00" 5 None).
    split; [vm_compute; left|done].
  - apply (C7_pause_any_state "2025-01-01T00:04:00+00:00" "j9" demo_dead_db).
    intros (j & Hj & Hid). vm_compute in Hj.
    apply elem_of_cons in Hj as [->|Hj]; [discriminate|].
    apply list_elem_of_singleton in Hj. subst j. discriminate.
Defined.


Lemma C9_empty_id_or_command_rejected_witness :
  enqueue "2025-01-01T00:05:00+00:00"
          (mkDescriptor (Some (JStr "")) (Some (JStr "echo hi")) None None None)
          demo_db
  = (Raise (ClickException MustIncludeId), demo_db)
  ∧ enqueue "2025-01-01T00:05:00+00:00"
            (mkDescriptor (Some (JStr "j3")) (Some (JFloat (S754_zero false)))
                          None None None)
            demo_db
    = (Raise (ClickException MustIncludeCommand), demo_db)
  ∧ (∀ j, j ∈ jobs (w_db race_world) →
       job_id j ≠ Some "" ∧ job_command j ≠ "").
Proof.
  destruct C9_empty_id_or_command_rejected as (Hid & Hcmd & _ & Hrows & _).
  split; [by apply Hid|]. split; [by apply Hcmd|].
  apply Hrows. by exists race_events.
Defined.

Lemma C10_backoff_base_never_raises_witness :
  load_backoff_base (config_set "backoff_base" "two" empty_db).2 = PyStr "two"
  ∧ backoff_base
      (load_backoff_base (config_set "backoff_base" "two" empty_db).2) = 2
  ∧ backoff_base
      (load_backoff_base (config_set "backoff_base" " 7 " empty_db).2) = 7.
Proof.
  destruct (C10_backoff_base_never_raises
              (config_set "backoff_base" "two" empty_db).2 "two" eq_refl)
    as (_ & Hraise & _).
  destruct (Hraise ValueError eq_refl) as (Hload & _ & Hbase).
  split; [exact Hload|]. split; [exact Hbase|].
  destruct (C10_backoff_base_never_raises
              (config_set "backoff_base" " 7 " empty_db).2 " 7 " eq_refl)
    as (Hint & _).
  by destruct (Hint 7 eq_refl).
Defined.

Lemma reachable_rows_well_formed_witness :
  (∀ j, j ∈ jobs (w_db race_world) →
     job_state j ∈ ["pending"; "processing"; "completed"; "dead"; "paused"]
     ∧ 0 ≤ job_attempts j)
  ∧ (("failed", 0%nat) ∈ status_counts (w_db race_world))
  ∧ foldr Nat.add 0%nat (map snd (status_counts (w_db race_world)))
    = length (jobs (w_db race_world)).
Proof.
  apply (reachable_rows_well_formed race_world). by exists race_events.
Defined.

Lemma resume_only_paused_witness :
  resume_job "2025-01-01T00:04:00+00:00" "j1" demo_dead_db
  = (NotFoundOrNotPaused, demo_dead_db)
  ∧ (resume_job "2025-01-01T00:05:00+00:00" "j1"
       (pause_job "2025-01-01T00:04:00+00:00" "j1" demo_db).2).1 = JobResumed.
Proof.
  split.
  - apply (resume_only_paused "2025-01-01T00:04:00+00:00" "j1" demo_dead_db).
    intros (j & Hj & Hid & Hst). vm_compute in Hj.
    apply elem_of_cons in Hj as [->|Hj]; [discriminate|].
    apply list_elem_of_singleton in Hj. subst j. discriminate.
  - apply (resume_only_paused "2025-01-01T00:05:00+00:00" "j1"
             (pause_job "2025-01-01T00:04:00+00:00" "j1" demo_db).2).
    exists (mkJob (Some "j1") "exit 1" "paused" 0 3
                  "2025-01-01T00:00:01+00:00"
                  "2025-01-01T00:04:00+00:00" 5 None).
    split; [vm_compute; left|done].
Defined.

Lemma cancel_deletes_row_witness :
  (cancel_job "j1" demo_db).1 = JobCancelled
  ∧ cancel_job "j9" demo_db = (NoJobFound, demo_db).
Proof.
  split.
  - apply (cancel_deletes_row "j1" demo_db).
    exists (mkJob (Some "j1") "exit 1" "pending" 0 3
                  "2025-01-01T00:00:01+00:00"
                  "2025-01-01T00:00:01+00:00" 5 None).
    split; [vm_compute; left|done].
  - apply (cancel_deletes_row "j9" demo_db).
    intros (j & Hj & Hid). vm_compute in Hj.
    apply elem_of_cons in Hj as [->|Hj]; [discriminate|].
    apply list_elem_of_singleton in Hj. subst j. discriminate.
Defined.

Lemma consecutive_claims_differ_witness :
  row_id (mkRow (Some "j2") "exit 1" 0 0 1 None) ≠ Some "j1"
  ∧ (fetch_pending_job true "2025-01-01T00:01:00+00:00"
       "2025-01-01T00:01:00+00:00" nan_db).2 = nan_db.
Proof.
  split.
  - apply (consecutive_claims_differ true true
             "2025-01-01T00:01:00+00:00" "2025-01-01T00:01:00+00:00"
             "2025-01-01T00:01:02+00:00" "2025-01-01T00:01:02+00:00"
             demo_db
             (fetch_pending_job true "2025-01-01T00:01:00+00:00"
                "2025-01-01T00:01:00+00:00" demo_db).2
             (fetch_pending_job true "2025-01-01T00:01:02+00:00"
                "2025-01-01T00:01:02+00:00"
                (fetch_pending_job true "2025-01-01T00:01:00+00:00"
                   "2025-01-01T00:01:00+00:00" demo_db).2).2
             (mkRow (Some "j1") "exit 1" 0 3 5 None)
             (mkRow (Some "j2") "exit 1" 0 0 1 None));
      reflexivity.
  - apply (consecutive_claims_differ true true
             "2025-01-01T00:01:00+00:00" "2025-01-01T00:01:00+00:00"
             "2025-01-01T00:01:00+00:00" "2025-01-01T00:01:02+00:00"
             nan_db
             (fetch_pending_job true "2025-01-01T00:01:00+00:00"
                "2025-01-01T00:01:00+00:00" nan_db).2
             nan_db
             (mkRow None "echo hi" 0 3 0 None)
             (mkRow None "echo hi" 0 3 0 None));
      reflexivity.
Defined.

Lemma paused_job_not_claimed_witness :
  row_id (mkRow (Some "j2") "exit 1" 0 0 1 None) ≠ Some "j1"
  ∧ lookup_job "j1"
      (w_db (run [Start 1;
                  Claim 1 true "2025-01-01T00:03:00+00:00"
                               "2025-01-01T00:03:00+00:00";
                  Finish 1 false "2025-01-01T00:03:01+00:00";
                  Claim 1 true "2025-01-01T00:03:02+00:00"
                               "2025-01-01T00:03:02+00:00"]
                 (step (Cli (CmdPause "2025-01-01T00:00:30+00:00" "j1"))
                       (mkWorld demo_db ∅ []))))
    = Some (mkJob (Some "j1") "exit 1" "paused" 0 3
                  "2025-01-01T00:00:01+00:00" "2025-01-01T00:00:30+00:00"
                  5 None).
Proof.
  destruct paused_job_not_claimed as [Hnext Hstays]. split.
  - apply (Hnext "2025-01-01T00:00:30+00:00" "j1" demo_db true
             "2025-01-01T00:01:00+00:00" "2025-01-01T00:01:00+00:00"
             (mkRow (Some "j2") "exit 1" 0 0 1 None)
             (fetch_pending_job true "2025-01-01T00:01:00+00:00"
                "2025-01-01T00:01:00+00:00"
                (pause_job "2025-01-01T00:00:30+00:00" "j1" demo_db).2).2).
    reflexivity.
  - apply (Hstays "2025-01-01T00:00:30+00:00" "j1" (mkWorld demo_db ∅ [])
             (mkJob (Some "j1") "exit 1" "pending" 0 3
                    "2025-01-01T00:00:01+00:00"
                    "2025-01-01T00:00:01+00:00" 5 None));
      [apply demo_db_unique_ids| |reflexivity..].
    intros w k job Hk. simpl in Hk. by rewrite lookup_empty in Hk.
Defined.

Lemma pause_resume_restores_witness :
  (pause_job "2025-01-01T00:00:30+00:00" "j1" demo_db).1 = JobPaused
  ∧ (resume_job "2025-01-01T00:00:40+00:00" "j1"
       (pause_job "2025-01-01T00:00:30+00:00" "j1" demo_db).2).1 = JobResumed.
Proof.
  split;
    apply (pause_resume_restores "2025-01-01T00:00:30+00:00"
             "2025-01-01T00:00:40+00:00" "j1" demo_db
             (mkJob (Some "j1") "exit 1" "pending" 0 3
                    "2025-01-01T00:00:01+00:00"
                    "2025-01-01T00:00:01+00:00" 5 None));
    (apply demo_db_unique_ids || reflexivity).
Defined.

Lemma event_changes_only_state_columns_witness :
  mkJob (Some "j1") "exit 1" "paused" 0 3 "2025-01-01T00:00:01+00:00"
        "2025-01-01T00:00:30+00:00" 5 None
  = mkJob (Some "j1") "exit 1" "paused" 0 3 "2025-01-01T00:00:01+00:00"
          "2025-01-01T00:00:30+00:00" 5 None.
Proof.
  apply (event_changes_only_state_columns
           (Cli (CmdPause "2025-01-01T00:00:30+00:00" "j1"))
           (mkWorld demo_db ∅ []) "j1"
           (mkJob (Some "j1") "exit 1" "pending" 0 3
                  "2025-01-01T00:00:01+00:00"
                  "2025-01-01T00:00:01+00:00" 5 None)
           (mkJob (Some "j1") "exit 1" "paused" 0 3
                  "2025-01-01T00:00:01+00:00"
                  "2025-01-01T00:00:30+00:00" 5 None));
    [apply demo_db_unique_ids|reflexivity..].
Defined.

Lemma worker_config_is_a_snapshot_witness :
  ∃ k, w_workers
         (run [Cli (CmdConfigSet "max_retries" "9");
               Claim 1 true "2025-01-01T00:01:00+00:00"
                            "2025-01-01T00:01:00+00:00"]
              (step (Start 1) (mkWorld demo_db ∅ []))) !! 1%nat = Some k
     ∧ max_retries_conf k = load_max_retries demo_db
     ∧ backoff_base_conf k = load_backoff_base demo_db.
Proof.
  apply (worker_config_is_a_snapshot
           [Cli (CmdConfigSet "max_retries" "9");
            Claim 1 true "2025-01-01T00:01:00+00:00"
                         "2025-01-01T00:01:00+00:00"]
           (mkWorld demo_db ∅ []) 1%nat).
  - reflexivity.
  - intros [|[|[|n]]]; vm_compute; eauto.
Defined.

Lemma one_worker_per_job_witness :
  (∃ j, lookup_job "j1"
          (w_db (run [Cli (CmdEnqueue "2025-01-01T00:00:01+00:00" demo_j1);
                      Cli (CmdEnqueue "2025-01-01T00:00:02+00:00" demo_j2);
                      Start 1; Start 2;
                      Claim 1 true "2025-01-01T00:01:00+00:00"
                                   "2025-01-01T00:01:00+00:00";
                      Claim 2 true "2025-01-01T00:01:00+00:00"
                                   "2025-01-01T00:01:01+00:00"]
                     initial_world)) = Some j
        ∧ job_state j = "processing")
  ∧ (1%nat ≠ 2%nat →
     row_id (mkRow (Some "j2") "exit 1" 0 0 1 None) ≠ Some "j1").
Proof.
  apply (one_worker_per_job
           [Cli (CmdEnqueue "2025-01-01T00:00:01+00:00" demo_j1);
            Cli (CmdEnqueue "2025-01-01T00:00:02+00:00" demo_j2);
            Start 1; Start 2;
            Claim 1 true "2025-01-01T00:01:00+00:00"
                         "2025-01-01T00:01:00+00:00";
            Claim 2 true "2025-01-01T00:01:00+00:00"
                         "2025-01-01T00:01:01+00:00"]
           eq_refl 1%nat 2%nat
           (mkWorker (PyInt 3) (PyInt 2)
                     (Some (mkRow (Some "j1") "exit 1" 0 3 5 None)))
           (mkWorker (PyInt 3) (PyInt 2)
                     (Some (mkRow (Some "j2") "exit 1" 0 0 1 None)))
           (mkRow (Some "j1") "exit 1" 0 3 5 None)
           (mkRow (Some "j2") "exit 1" 0 0 1 None) "j1");
    reflexivity.
Defined.

(** Why X12 leaves out the DLQ retries that other events interleave with:
    two retries of the same dead job whose statements overlap send the job
    out twice. The SELECT of both finds the job dead; the UPDATE of the first
    makes it pending and worker 1 claims it; the UPDATE of the second, by id
    alone, makes it pending again and worker 2 claims it as well. *)
Example overlapping_dlq_retries :
  let W :=
    run [Cli (CmdEnqueue "2025-01-01T00:00:00+00:00"
                (mkDescriptor (Some (JStr "r")) (Some (JStr "exit 1"))
                              (Some 1) None None));
         Start 1; Start 2;
         Claim 1 true "2025-01-01T00:00:01+00:00" "2025-01-01T00:00:01+00:00";
         Finish 1 false "2025-01-01T00:00:02+00:00";
         DlqRetrySelect "r"; DlqRetrySelect "r";
         DlqRetryUpdate "2025-01-01T00:00:03+00:00" "r";
         Claim 1 true "2025-01-01T00:00:04+00:00" "2025-01-01T00:00:04+00:00";
         DlqRetryUpdate "2025-01-01T00:00:05+00:00" "r";
         Claim 2 true "2025-01-01T00:00:06+00:00" "2025-01-01T00:00:06+00:00"]
        initial_world in
  (current <$> w_workers W !! 1%nat)
  = Some (Some (mkRow (Some "r") "exit 1" 0 1 0 None))
  ∧ (current <$> w_workers W !! 2%nat)
    = Some (Some (mkRow (Some "r") "exit 1" 0 1 0 None)).
Proof. split; vm_compute; reflexivity. Qed.


Lemma workers_leave_settled_jobs_witness :
  lookup_job "j1"
    (w_db (run [Start 1;
                Claim 1 true "2025-01-01T00:03:00+00:00"
                             "2025-01-01T00:03:00+00:00";
                Finish 1 true "2025-01-01T00:03:01+00:00"]
               (mkWorld (pause_job "2025-01-01T00:00:30+00:00" "j1" demo_db).2
                        ∅ [])))
  = Some (mkJob (Some "j1") "exit 1" "paused" 0 3 "2025-01-01T00:00:01+00:00"
                "2025-01-01T00:00:30+00:00" 5 None).
Proof.
  apply workers_leave_settled_jobs;
    [reflexivity| |apply no_workers_consistent|reflexivity|done|done].
  by apply (two_ids_unique _ "j1" "j2").
Defined.

Lemma non_integer_max_retries_stops_worker_witness :
  load_max_retries (config_set "max_retries" "many" empty_db).2 = PyStr "many"
  ∧ finish_job (load_max_retries (config_set "max_retries" "many" empty_db).2)
               (PyInt 2) (mkRow (Some "j2") "exit 1" 0 0 1 None) false
               "2025-01-01T00:01:01+00:00" demo_db
    = (Raise TypeError, demo_db).
Proof.
  destruct (non_integer_max_retries_stops_worker
              (config_set "max_retries" "many" empty_db).2 "many" (PyInt 2)
              (mkRow (Some "j2") "exit 1" 0 0 1 None)
              "2025-01-01T00:01:01+00:00" demo_db)
    as (Hload & Hzero & _); [reflexivity|vm_compute; reflexivity|].
  split; [exact Hload|]. by destruct (Hzero eq_refl).
Defined.

Lemma enqueue_then_list_witness :
  ∃ id command,
    stored_text (d_id race_job) = Ok id
    ∧ stored_text (d_command race_job) = Ok (Some command)
    ∧ jobs (enqueue "2025-01-01T00:00:05+00:00" race_job demo_db).2
      = (jobs demo_db
         ++ [mkJob id command "pending" 0
                   (default 3 (d_max_retries race_job))
                   "2025-01-01T00:00:05+00:00" "2025-01-01T00:00:05+00:00"
                   (default 0 (d_priority race_job)) (d_run_at race_job)])%list.
Proof.
  destruct (enqueue_then_list "2025-01-01T00:00:05+00:00" race_job demo_db
              (enqueue "2025-01-01T00:00:05+00:00" race_job demo_db).2
              demo_db_unique_ids eq_refl)
    as (id & command & H1 & H2 & H3 & _).
  by exists id, command.
Defined.

Lemma config_set_persists_witness :
  config (w_db (run [Cli (CmdConfigSet "backoff_base" "3"); Start 1]
                    (step (Cli (CmdConfigSet "max_retries" "5"))
                          initial_world))) !! "max_retries" = Some "5"
  ∧ get_config (w_db (run [Cli (CmdConfigSet "backoff_base" "3"); Start 1]
                          (step (Cli (CmdConfigSet "max_retries" "5"))
                                initial_world))) "max_retries" (PyInt 0)
    = PyInt 5.
Proof.
  destruct (config_set_persists
              [Cli (CmdConfigSet "backoff_base" "3"); Start 1] "max_retries")
    as [Hset _].
  - intros v Hv. apply elem_of_cons in Hv as [Hv|Hv]; [discriminate|].
    apply list_elem_of_singleton in Hv. discriminate.
  - apply (Hset initial_world "5" (PyInt 0)).
Defined.

Lemma dlq_retry_then_claim_witness :
  ∃ snap d',
    fetch_pending_job true "2025-01-01T00:05:00+00:00"
      "2025-01-01T00:05:00+00:00"
      (dlq_retry "2025-01-01T00:04:00+00:00" "j1" demo_dead_db).2
    = (Some snap, d')
    ∧ (row_id snap = Some "j1" →
       snap = mkRow (Some "j1") "exit 1" 0 3 5 None).
Proof.
  destruct (dlq_retry_then_claim "2025-01-01T00:04:00+00:00" "j1" demo_dead_db
              (mkJob (Some "j1") "exit 1" "dead" 3 3
                     "2025-01-01T00:00:01+00:00"
                     "2025-01-01T00:01:01+00:00" 5 None)
              "2025-01-01T00:05:00+00:00" "2025-01-01T00:05:00+00:00")
    as (snap & d' & H1 & H2 & _);
    [apply demo_dead_db_unique_ids|vm_compute; reflexivity|reflexivity..
    |by exists snap, d'].
Defined.
